(** * The customers page ([src/pages/index.tsx]): form controller and validation

    A shallow embedding of the [Home] component: its five pieces of React
    state, the handlers [handleOpen], [handleClose], [handleChange],
    [validate] and [handleSubmit], the two regular expressions used by
    [validate], and the parts of the view that enable, disable or display
    them (the [disabled] prop of the submit button, the error banner).

    Strings are JavaScript strings: sequences of UTF-16 code units.  Objects
    used as dictionaries ([newCustomer], [errors]) are finite maps from
    property names to strings. *)

From Stdlib Require Import NArith List String Ascii Bool Lia.
From stdpp Require Import base option list gmap fin_maps.

Set Default Proof Using "Type".
Set Warnings "-register-all".

(** ** JavaScript strings *)

(** A string is the list of its UTF-16 code units. *)
Abbreviation jsstring := (list N).

(** Code units of an ASCII literal of the source text. *)
Fixpoint js (s : string) : jsstring :=
  match s with
  | EmptyString => []
  | String a s' => N_of_ascii a :: js s'
  end.
Arguments js s%_string : simpl never.

(** [ToBoolean] on a string, and on a possibly [undefined] string: the
    empty string and [undefined] are the falsy ones. *)
Definition truthy (s : jsstring) : bool :=
  match s with [] => false | _ :: _ => true end.

Definition truthy_opt (v : option jsstring) : bool :=
  match v with None => false | Some s => truthy s end.

(** ** Regular expressions

    The two patterns of [validate] are written without flags and are anchored
    at both ends, so [test] answers whether the whole input belongs to the
    language of the pattern between [^] and [$].  Matching is by code unit. *)
Module RegExp.

(** Members of a bracket expression. *)
Inductive class_item :=
| Range (lo hi : N)      (* [lo-hi] *)
| Single (c : N)         (* one code unit *)
| Space.                 (* \s *)

Inductive regex :=
| Void
| Eps
| Char (c : N)
| Class (negated : bool) (items : list class_item)
| Seq (r1 r2 : regex)
| Alt (r1 r2 : regex)
| Star (r : regex)
| Plus (r : regex).

(** [\s]: the WhiteSpace and LineTerminator productions of ECMAScript. *)
Definition is_space (c : N) : bool :=
  (((0x09 <=? c) && (c <=? 0x0D)) || (c =? 0x20) || (c =? 0xA0) ||
   (c =? 0x1680) || ((0x2000 <=? c) && (c <=? 0x200A)) ||
   (c =? 0x2028) || (c =? 0x2029) || (c =? 0x202F) || (c =? 0x205F) ||
   (c =? 0x3000) || (c =? 0xFEFF))%N.

Definition item_mem (c : N) (i : class_item) : bool :=
  match i with
  | Range lo hi => ((lo <=? c) && (c <=? hi))%N
  | Single d => (c =? d)%N
  | Space => is_space c
  end.

Definition class_mem (negated : bool) (items : list class_item) (c : N) : bool :=
  xorb negated (existsb (item_mem c) items).

(** The language of a pattern. *)
Inductive matches : regex -> jsstring -> Prop :=
| MEps : matches Eps []
| MChar c : matches (Char c) [c]
| MClass neg items c :
    class_mem neg items c = true -> matches (Class neg items) [c]
| MSeq r1 r2 s1 s2 :
    matches r1 s1 -> matches r2 s2 -> matches (Seq r1 r2) (s1 ++ s2)
| MAltL r1 r2 s : matches r1 s -> matches (Alt r1 r2) s
| MAltR r1 r2 s : matches r2 s -> matches (Alt r1 r2) s
| MStarNil r : matches (Star r) []
| MStarApp r s1 s2 :
    matches r s1 -> matches (Star r) s2 -> matches (Star r) (s1 ++ s2)
| MPlus r s1 s2 :
    matches r s1 -> matches (Star r) s2 -> matches (Plus r) (s1 ++ s2).

(** Matching by derivatives. *)
Fixpoint nullable (r : regex) : bool :=
  match r with
  | Void | Char _ | Class _ _ => false
  | Eps | Star _ => true
  | Seq r1 r2 => nullable r1 && nullable r2
  | Alt r1 r2 => nullable r1 || nullable r2
  | Plus r1 => nullable r1
  end.

Fixpoint derive (c : N) (r : regex) : regex :=
  match r with
  | Void | Eps => Void
  | Char d => if (c =? d)%N then Eps else Void
  | Class neg items => if class_mem neg items c then Eps else Void
  | Seq r1 r2 =>
      if nullable r1
      then Alt (Seq (derive c r1) r2) (derive c r2)
      else Seq (derive c r1) r2
  | Alt r1 r2 => Alt (derive c r1) (derive c r2)
  | Star r1 => Seq (derive c r1) (Star r1)
  | Plus r1 => Seq (derive c r1) (Star r1)
  end.

(** [/^r$/.test(s)] *)
Fixpoint test (r : regex) (s : jsstring) : bool :=
  match s with
  | [] => nullable r
  | c :: s' => test (derive c r) s'
  end.

End RegExp.

Import RegExp.

(** [/^[A-Za-z]+$/] *)
Definition lettersOnlyRegex : regex :=
  Plus (Class false [Range 0x41 0x5A; Range 0x61 0x7A]%N).

(** [[^\s@]] *)
Definition not_space_or_at : regex := Class true [Space; Single 0x40%N].

(** [/^[^\s@]+@[^\s@]+\.[^\s@]+$/] *)
Definition emailRegex : regex :=
  Seq (Plus not_space_or_at)
      (Seq (Char 0x40%N)
           (Seq (Plus not_space_or_at)
                (Seq (Char 0x2E%N) (Plus not_space_or_at)))).

(** ** Values read from a response body

    [response.json()] yields a JSON value.  Numbers are IEEE doubles, which are
    outside this development: a number is kept as the two observations
    [handleSubmit] can make of it, whether it is zero and its [ToString] image. *)
Inductive jsval :=
| JUndefined
| JNull
| JBool (b : bool)
| JNumber (zero : bool) (text : jsstring)
| JString (s : jsstring)
| JArray (items : list jsval)
| JObject (props : list (jsstring * jsval)).

Definition ToBoolean (v : jsval) : bool :=
  match v with
  | JUndefined | JNull => false
  | JBool b => b
  | JNumber zero _ => negb zero
  | JString s => truthy s
  | JArray _ | JObject _ => true
  end.

(** What a [catch] clause can receive: an instance of [Error] (which
    [TypeError] and [SyntaxError] are) with its message, or some other value. *)
Inductive thrown :=
| ThrownError (message : jsstring)
| ThrownOther.

(** The message of the [TypeError] raised when an object has no primitive
    value (V8's wording; the text is the engine's own). *)
Definition not_primitive_message : jsstring :=
  js "Cannot convert object to primitive value".

(** Whether an object built by [JSON.parse] has an own property [k]. *)
Definition has_own (k : jsstring) (props : list (jsstring * jsval)) : bool :=
  existsb (fun p => bool_decide (p.1 = k)) props.

(** [ToString], which may raise.  An object built by [JSON.parse] prints
    through [Object.prototype.toString] unless it has an own [toString]
    member: that member is never callable, [valueOf] gives no primitive
    either, and the conversion raises a [TypeError].  An array prints its
    elements in order, so the first element that raises decides. *)
Fixpoint ToString (v : jsval) : thrown + jsstring :=
  match v with
  | JUndefined => inr (js "undefined")
  | JNull => inr (js "null")
  | JBool true => inr (js "true")
  | JBool false => inr (js "false")
  | JNumber _ text => inr text
  | JString s => inr s
  | JArray items =>
      (* Array.prototype.join: null and undefined elements print as nothing *)
      (fix join (l : list jsval) : thrown + jsstring :=
         let elem x :=
           match x with JUndefined | JNull => inr [] | _ => ToString x end in
         match l with
         | [] => inr []
         | [x] => elem x
         | x :: l' =>
             match elem x with
             | inl err => inl err
             | inr s =>
                 match join l' with
                 | inl err => inl err
                 | inr rest => inr (s ++ js "," ++ rest)
                 end
             end
         end) items
  | JObject props =>
      if has_own (js "toString") props
      then inl (ThrownError not_primitive_message)
      else inr (js "[object Object]")
  end.

(** [a || b] *)
Definition or_else (a b : jsval) : jsval := if ToBoolean a then a else b.

(** [new Error(v)] for a [v] that is not [undefined]: the error whose
    message is [ToString v], unless that conversion raises. *)
Definition new_Error (v : jsval) : thrown + thrown :=
  match ToString v with
  | inl err => inl err
  | inr message => inr (ThrownError message)
  end.

(** The own property [k] of an object built by [JSON.parse]: of two members
    with the same name the later one stays; a missing one reads [undefined]. *)
Definition own_property (k : jsstring) (props : list (jsstring * jsval)) : jsval :=
  match find (fun p => bool_decide (p.1 = k)) (rev props) with
  | Some p => p.2
  | None => JUndefined
  end.

(** The message of the [TypeError] raised by a property read on [null]
    (V8's wording; the text is the engine's own). *)
Definition null_read_message : jsstring :=
  js "Cannot read properties of null (reading 'message')".

(** [errorData.message] *)
Definition get_message (errorData : jsval) : thrown + jsval :=
  match errorData with
  | JUndefined | JNull => inl (ThrownError null_read_message)
  | JObject props => inr (own_property (js "message") props)
  | JBool _ | JNumber _ _ | JString _ | JArray _ => inr JUndefined
  end.

(** A settled [fetch]: the promise rejects (network failure), or it fulfils
    with a response, of which [handleSubmit] reads [ok] and, when [ok] is
    false, the outcome of [await response.json()]. *)
Record Response := { ok : bool; json : thrown + jsval }.

Inductive fetch_result :=
| Rejected (err : thrown)
| Fulfilled (response : Response).

(** ** Component state *)

(** A JavaScript object used as a dictionary of strings. *)
Abbreviation dict := (gmap jsstring jsstring).

(** The five [useState] cells of [Home]. *)
Record state := {
  open : bool;
  newCustomer : dict;
  errors : dict;
  submitError : option jsstring;
  isSubmitting : bool
}.

(** The component together with what it has sent out: the bodies of the
    [POST /api/customers] requests not settled yet, and how many times the
    [mutate] of [useSWR] was called. *)
Record world := {
  ctl : state;
  pending : list dict;
  revalidations : nat
}.

Definition emptyCustomer : dict :=
  <[js "firstName" := []]> (<[js "lastName" := []]>
    (<[js "email" := []]> (<[js "businessName" := []]> ∅))).

Definition initial_state : state :=
  {| open := false; newCustomer := emptyCustomer; errors := ∅;
     submitError := None; isSubmitting := false |}.

Definition initial_world : world :=
  {| ctl := initial_state; pending := []; revalidations := 0 |}.

(** ** Handler computations

    A handler runs over the world and either completes or throws. *)
Definition M (A : Type) : Type := world -> (thrown + A) * world.

#[export] Instance M_ret : MRet M := fun A a w => (inr a, w).

#[export] Instance M_bind : MBind M := fun A B k m w =>
  match m w with
  | (inl e, w') => (inl e, w')
  | (inr a, w') => k a w'
  end.

Definition throw {A} (e : thrown) : M A := fun w => (inl e, w).

(** Lifts the outcome of an awaited promise. *)
Definition await {A} (p : thrown + A) : M A := fun w => (p, w).

(** An expression that may raise, such as a property read. *)
Definition attempt {A} (v : thrown + A) : M A := fun w => (v, w).

(** [try { body } catch (err) { handler }] *)
Definition try_catch {A} (body : M A) (handler : thrown -> M A) : M A := fun w =>
  match body w with
  | (inl err, w') => handler err w'
  | (inr a, w') => (inr a, w')
  end.

(** [try { body } finally { cleanup }] *)
Definition try_finally {A} (body : M A) (cleanup : M unit) : M A := fun w =>
  let '(res, w1) := body w in
  match cleanup w1 with
  | (inl err, w2) => (inl err, w2)
  | (inr _, w2) => (res, w2)
  end.

(** The world after a handler has run. *)
Definition run {A} (m : M A) (w : world) : world := (m w).2.

Definition modify_state (f : state -> state) : M unit := fun w =>
  (inr tt, {| ctl := f (ctl w); pending := pending w;
              revalidations := revalidations w |}).

(** The state setters.  A setter called with an updater function has its
    own name ([updNewCustomer], [updErrors]). *)
Definition setOpen (v : bool) : M unit :=
  modify_state (fun s =>
    {| open := v; newCustomer := newCustomer s; errors := errors s;
       submitError := submitError s; isSubmitting := isSubmitting s |}).

Definition updNewCustomer (f : dict -> dict) : M unit :=
  modify_state (fun s =>
    {| open := open s; newCustomer := f (newCustomer s); errors := errors s;
       submitError := submitError s; isSubmitting := isSubmitting s |}).

Definition setNewCustomer (v : dict) : M unit := updNewCustomer (fun _ => v).

Definition updErrors (f : dict -> dict) : M unit :=
  modify_state (fun s =>
    {| open := open s; newCustomer := newCustomer s; errors := f (errors s);
       submitError := submitError s; isSubmitting := isSubmitting s |}).

Definition setErrors (v : dict) : M unit := updErrors (fun _ => v).

Definition setSubmitError (v : option jsstring) : M unit :=
  modify_state (fun s =>
    {| open := open s; newCustomer := newCustomer s; errors := errors s;
       submitError := v; isSubmitting := isSubmitting s |}).

Definition setIsSubmitting (v : bool) : M unit :=
  modify_state (fun s =>
    {| open := open s; newCustomer := newCustomer s; errors := errors s;
       submitError := submitError s; isSubmitting := v |}).

(** [mutate()] of [useSWR]: asks for a revalidation; its promise is dropped. *)
Definition mutate : M unit := fun w =>
  (inr tt, {| ctl := ctl w; pending := pending w;
              revalidations := S (revalidations w) |}).

(** [fetch('/api/customers', { method: 'POST', body: JSON.stringify(c) })]:
    the request is on its way; the handler is resumed when it settles. *)
Definition fetch_post (c : dict) : M unit := fun w =>
  (inr tt, {| ctl := ctl w; pending := pending w ++ [c];
              revalidations := revalidations w |}).

(** ** The handlers of [Home] *)

(** The four text fields of the dialog; [name] is the [name] prop of each. *)
Inductive input := FirstName | LastName | BusinessName | Email.

Definition name (i : input) : jsstring :=
  match i with
  | FirstName => js "firstName"
  | LastName => js "lastName"
  | BusinessName => js "businessName"
  | Email => js "email"
  end.

(** [e.target] of a change event. *)
Record ChangeEvent := { target : input; value : jsstring }.

Definition handleOpen : M unit := setOpen true.

Definition handleClose : M unit :=
  setOpen false ;;
  setNewCustomer emptyCustomer ;;
  setErrors ∅ ;;
  setSubmitError None.

(** The three blocks of [validate], each adding at most one entry to
    [newErrors].  [!c.f] holds when the property is missing or empty. *)
Definition check_firstName (c newErrors : dict) : dict :=
  match c !! js "firstName" with
  | Some ((_ :: _) as firstName) =>
      if negb (test lettersOnlyRegex firstName)
      then <[js "firstName" := js "First name should contain only letters"]> newErrors
      else newErrors
  | _ => <[js "firstName" := js "First name is required"]> newErrors
  end.

Definition check_lastName (c newErrors : dict) : dict :=
  match c !! js "lastName" with
  | Some ((_ :: _) as lastName) =>
      if negb (test lettersOnlyRegex lastName)
      then <[js "lastName" := js "Last name should contain only letters"]> newErrors
      else newErrors
  | _ => <[js "lastName" := js "Last name is required"]> newErrors
  end.

Definition check_email (c newErrors : dict) : dict :=
  match c !! js "email" with
  | Some ((_ :: _) as email) =>
      if negb (test emailRegex email)
      then <[js "email" := js "Email should be valid (e.g., user@example.com)"]> newErrors
      else newErrors
  | _ => <[js "email" := js "Email is required"]> newErrors
  end.

(** [newErrors] as [validate] has built it when it reaches [setErrors]. *)
Definition newErrors_of (c : dict) : dict :=
  check_email c (check_lastName c (check_firstName c ∅)).

Section Render.

(** The handlers are closures of one render: what they read of the state
    is the value [r] it had at that render, what they write goes through
    the setters. *)
Variable r : state.

Definition handleChange (e : ChangeEvent) : M unit :=
  let name := name (target e) in
  let value := value e in
  updNewCustomer (fun prev => <[name := value]> prev) ;;
  if truthy_opt (errors r !! name)
  then updErrors (fun prev => <[name := []]> prev)
  else mret tt.

Definition validate : M bool :=
  let newErrors := newErrors_of (newCustomer r) in
  setErrors newErrors ;;
  (* Object.keys(newErrors).length === 0 *)
  mret (Nat.eqb (length (map_to_list newErrors).*1) 0).

(** [handleSubmit] up to its first [await]: [validate], the two setters
    and the call of [fetch].  ([e.preventDefault()] does nothing to the
    state.) *)
Definition handleSubmit : M unit :=
  valid ← validate ;
  if negb valid then mret tt
  else
    setIsSubmitting true ;;
    setSubmitError None ;;
    fetch_post (newCustomer r).

End Render.

(** [handleSubmit] from the moment the request has settled: the rest of the
    [try] block, the [catch] and the [finally].  It reads nothing of the
    render it was started in. *)
Definition handleSubmit_settled (res : fetch_result) : M unit :=
  try_finally
    (try_catch
       (response ← await (match res with
                          | Rejected err => inl err
                          | Fulfilled response => inr response
                          end) ;
        (if negb (ok response) then
           errorData ← await (json response) ;
           message ← attempt (get_message errorData) ;
           err ← attempt
                   (new_Error
                      (or_else message (JString (js "Failed to create customer")))) ;
           throw err
         else mret tt) ;;
        mutate ;;
        handleClose)
       (fun err =>
          setSubmitError
            (Some (match err with
                   | ThrownError message => message
                   | ThrownOther => js "An unknown error occurred"
                   end))))
    (setIsSubmitting false).

(** ** The view *)

(** [disabled={isSubmitting}] on the submit button. *)
Definition submit_disabled (s : state) : bool := isSubmitting s.

(** [{submitError && <Alert>{submitError}</Alert>}], the first child of the
    dialog's content. *)
Definition banner (s : state) : option jsstring :=
  match submitError s with
  | Some m => if truthy m then Some m else None
  | None => None
  end.

(** ** Events *)

(** Takes the [i]-th unsettled request out of the world. *)
Definition settle_request (i : nat) (w : world) : world :=
  {| ctl := ctl w; pending := delete i (pending w);
     revalidations := revalidations w |}.

(** One event of the page: a user action delivered to the handler of the
    current render, or a pending request that settles.  A submit event is
    delivered only while the submit button is enabled. *)
Inductive step : world -> world -> Prop :=
| step_open w :
    step w (run handleOpen w)
| step_close w :
    step w (run handleClose w)
| step_change w e :
    step w (run (handleChange (ctl w) e) w)
| step_submit w :
    submit_disabled (ctl w) = false ->
    step w (run (handleSubmit (ctl w)) w)
| step_settled w i body res :
    pending w !! i = Some body ->
    step w (run (handleSubmit_settled res) (settle_request i w)).

Inductive reachable : world -> Prop :=
| reachable_initial : reachable initial_world
| reachable_step w w' : reachable w -> step w w' -> reachable w'.

(** ** The validation rules as the specification words them *)

(** A letter of [A-Z] or [a-z]. *)
Definition is_letter (c : N) : bool :=
  (((0x41 <=? c) && (c <=? 0x5A)) || ((0x61 <=? c) && (c <=? 0x7A)))%N.

(** The rule for [firstName] and [lastName]: required, letters only. *)
Definition spec_name_rule (required only_letters : jsstring) (v : jsstring)
  : option jsstring :=
  match v with
  | [] => Some required
  | _ :: _ => if forallb is_letter v then None else Some only_letters
  end.

(** Neither whitespace nor [@]. *)
Definition plain_char (c : N) : bool := negb (is_space c) && negb (c =? 0x40)%N.

(** One or more plain characters, [@], one or more plain characters, a dot,
    one or more plain characters. *)
Definition spec_email_shape (s : jsstring) : Prop :=
  exists a b c : jsstring,
    s = a ++ [0x40%N] ++ b ++ [0x2E%N] ++ c /\
    a <> [] /\ b <> [] /\ c <> [] /\
    Forall (fun x => plain_char x = true) a /\
    Forall (fun x => plain_char x = true) b /\
    Forall (fun x => plain_char x = true) c.

(** What follows the first [@] of a string, if there is one. *)
Fixpoint after_at (s : jsstring) : option jsstring :=
  match s with
  | [] => None
  | c :: s' => if (c =? 0x40)%N then Some s' else after_at s'
  end.

(** Exactly one [@], and at least one dot after it. *)
Definition one_at_then_dot (s : jsstring) : bool :=
  Nat.eqb (count_occ N.eq_dec s 0x40%N) 1 &&
  match after_at s with
  | Some rest => existsb (fun c => (c =? 0x2E)%N) rest
  | None => false
  end.

(** A name passes when it is non-empty and made of letters; a field of the
    draft is in order when the rule of its name, if it has one, is met.  A
    field the draft lacks counts as empty. *)
Definition name_ok (v : jsstring) : Prop :=
  v <> [] /\ Forall (fun c => is_letter c = true) v.

Definition spec_field_ok (c : dict) (k : jsstring) : Prop :=
  (k = js "firstName" -> name_ok (default [] (c !! k))) /\
  (k = js "lastName" -> name_ok (default [] (c !! k))) /\
  (k = js "email" -> spec_email_shape (default [] (c !! k))).

(** The entry each block of [validate] contributes, if any. *)
Definition firstName_verdict (c : dict) : option jsstring :=
  spec_name_rule (js "First name is required")
    (js "First name should contain only letters")
    (default [] (c !! js "firstName")).

Definition lastName_verdict (c : dict) : option jsstring :=
  spec_name_rule (js "Last name is required")
    (js "Last name should contain only letters")
    (default [] (c !! js "lastName")).

Definition email_verdict (c : dict) : option jsstring :=
  match default [] (c !! js "email") with
  | [] => Some (js "Email is required")
  | (_ :: _) as email =>
      if test emailRegex email then None
      else Some (js "Email should be valid (e.g., user@example.com)")
  end.

(** ** A failed request, in one step *)

(** The message a failed request leaves, when there is one to leave. *)
Definition thrown_message (err : thrown) : jsstring :=
  match err with
  | ThrownError message => message
  | ThrownOther => js "An unknown error occurred"
  end.

(** A request that went wrong with [err]: the error is recorded and nothing
    else of the state moves but [isSubmitting]. *)
Definition failed_with (err : thrown) (w : world) : world :=
  {| ctl := {| open := open (ctl w); newCustomer := newCustomer (ctl w);
               errors := errors (ctl w);
               submitError := Some (thrown_message err);
               isSubmitting := false |};
     pending := pending w; revalidations := revalidations w |}.

(** Whether a settled request counts as failed: the promise rejected, or
    the response is not [ok]. *)
Definition is_failure (res : fetch_result) : bool :=
  match res with
  | Rejected _ => true
  | Fulfilled response => negb (ok response)
  end.

(** ** Sample data *)

Definition jane : dict :=
  <[js "firstName" := js "Jane"]> (<[js "lastName" := js "Doe"]>
    (<[js "email" := js "jane@doe.com"]> emptyCustomer)).

Definition anne_marie : dict :=
  <[js "firstName" := js "Anne-Marie"]> (<[js "lastName" := []]>
    (<[js "email" := js "user@example.com"]> emptyCustomer)).

(** The dialog is open on a draft, nothing is in flight. *)
Definition editing (c : dict) : world :=
  {| ctl := {| open := true; newCustomer := c; errors := ∅;
               submitError := None; isSubmitting := false |};
     pending := []; revalidations := 0 |}.

(** The dialog is open on a draft whose create request is in flight. *)
Definition submitting (c : dict) : world :=
  {| ctl := {| open := true; newCustomer := c; errors := ∅;
               submitError := None; isSubmitting := true |};
     pending := [c]; revalidations := 0 |}.

(** [400] with body [{"message": m}]. *)
Definition bad_request (m : jsstring) : Response :=
  {| ok := false; json := inr (JObject [(js "message", JString m)]) |}.

(** [400] with body [{"message": v}] for any JSON value [v]. *)
Definition bad_request_value (v : jsval) : Response :=
  {| ok := false; json := inr (JObject [(js "message", v)]) |}.

(** [201] with some body, which is not read. *)
Definition created : Response := {| ok := true; json := inr (JObject []) |}.

(** ** The list of customers

    The fetcher given to [useSWR], the type of the rows it brings and the
    name shown for each. *)
Module CustomerList.

(** [Customer]: three strings, and a business name that may be missing. *)
Record Customer := {
  firstName : jsstring;
  lastName : jsstring;
  email : jsstring;
  businessName : option jsstring
}.

(** What [fetcher] rejects with: whatever [fetch] or [response.json()]
    raised, or, from [throw body], the parsed body of a response that is not
    [ok]. *)
Inductive rejection :=
| Raised (err : thrown)
| ThrownBody (body : jsval).

(** [fetcher], on a settled [fetch]: the body is parsed first, the status is
    looked at after. *)
Definition fetcher (res : fetch_result) : rejection + jsval :=
  match res with
  | Rejected err => inl (Raised err)
  | Fulfilled response =>
      match json response with
      | inl err => inl (Raised err)
      | inr body => if negb (ok response) then inl (ThrownBody body) else inr body
      end
  end.

(** [getDisplayName] *)
Definition getDisplayName (customer : Customer) : jsstring :=
  match businessName customer with
  | Some ((_ :: _) as business) => business
  | _ => firstName customer ++ js " " ++ lastName customer
  end.

End CustomerList.

(** ** The text fields of the dialog *)

(** The [error] prop of a text field: [!!errors.f] on the three validated
    fields; the business name field has none. *)
Definition field_error (s : state) (i : input) : bool :=
  match i with
  | BusinessName => false
  | FirstName | LastName | Email => truthy_opt (errors s !! name i)
  end.

(** The property names of the draft. *)
Definition field_names : gset jsstring :=
  {[ js "firstName"; js "lastName"; js "email"; js "businessName" ]}.

(** The property names [validate] can put in the error map. *)
Definition validated_names : gset jsstring :=
  {[ js "firstName"; js "lastName"; js "email" ]}.

(** Jane Doe's data typed into the opened dialog and submitted, event by
    event. *)
Definition jane_typed : world :=
  let w1 := run handleOpen initial_world in
  let w2 := run (handleChange (ctl w1) {| target := Email; value := js "jane@doe.com" |}) w1 in
  let w3 := run (handleChange (ctl w2) {| target := LastName; value := js "Doe" |}) w2 in
  run (handleChange (ctl w3) {| target := FirstName; value := js "Jane" |}) w3.

Definition jane_in_flight : world := run (handleSubmit (ctl jane_typed)) jane_typed.

(** The dialog opened and submitted with nothing typed. *)
Definition empty_submitted : world :=
  let w1 := run handleOpen initial_world in
  run (handleSubmit (ctl w1)) w1.

(** Jane Doe's request in flight, and the first name retyped meanwhile. *)
Definition jane_retyped : world :=
  run (handleChange (ctl (submitting jane))
         {| target := FirstName; value := js "Janet" |}) (submitting jane).

(** * Properties *)

(** ** The matcher decides the language of a pattern *)

(** Inversion of a match whose two halves concatenate to the empty string. *)
Ltac split_nil :=
  match goal with
  | E : _ ++ _ = [] |- _ => apply app_eq_nil in E as [-> ->]
  | E : [] = _ ++ _ |- _ => symmetry in E; apply app_eq_nil in E as [-> ->]
  end.

Lemma nullable_matches (r : regex) : nullable r = true <-> matches r [].
Proof.
  induction r as [| | c | neg items | r1 IH1 r2 IH2 | r1 IH1 r2 IH2 | r IH | r IH];
    simpl.
  - split; [discriminate | inversion 1].
  - split; [constructor | reflexivity].
  - split; [discriminate | inversion 1].
  - split; [discriminate | inversion 1].
  - rewrite andb_true_iff, IH1, IH2. split.
    + intros [H1 H2]. change (@nil N) with (@nil N ++ []). by constructor.
    + inversion 1; subst. split_nil. done.
  - rewrite orb_true_iff, IH1, IH2. split.
    + intros [H | H]; [by apply MAltL | by apply MAltR].
    + inversion 1; subst; auto.
  - split; [constructor | reflexivity].
  - rewrite IH. split.
    + intros H. change (@nil N) with (@nil N ++ []).
      constructor; [done | constructor].
    + inversion 1; subst. split_nil. done.
Qed.

Lemma matches_derive (c : N) (r : regex) (s : jsstring) :
  matches r (c :: s) -> matches (derive c r) s.
Proof.
  intros H. remember (c :: s) as l eqn:El. revert s El.
  induction H as [| d | neg items d Hd | r1 r2 s1 s2 H1 IH1 H2 IH2
                 | r1 r2 s0 H IH | r1 r2 s0 H IH | r
                 | r s1 s2 H1 IH1 H2 IH2 | r s1 s2 H1 IH1 H2 IH2];
    intros s El; simpl.
  - discriminate El.
  - injection El as -> <-. rewrite N.eqb_refl. constructor.
  - injection El as -> <-. rewrite Hd. constructor.
  - destruct s1 as [| x s1'].
    + simpl in El. subst s2.
      apply nullable_matches in H1. rewrite H1. apply MAltR. by apply IH2.
    + simpl in El. injection El as -> <-.
      destruct (nullable r1); [apply MAltL |]; constructor; auto.
  - apply MAltL. by apply IH.
  - apply MAltR. by apply IH.
  - discriminate El.
  - destruct s1 as [| x s1'].
    + simpl in El. by apply IH2.
    + simpl in El. injection El as -> <-. constructor; auto.
  - destruct s1 as [| x s1'].
    + simpl in El. specialize (IH2 _ El). exact IH2.
    + simpl in El. injection El as -> <-. constructor; auto.
Qed.

Lemma derive_matches (c : N) (r : regex) (s : jsstring) :
  matches (derive c r) s -> matches r (c :: s).
Proof.
  revert s.
  induction r as [| | d | neg items | r1 IH1 r2 IH2 | r1 IH1 r2 IH2 | r IH | r IH];
    intros s H; simpl in H.
  - inversion H.
  - inversion H.
  - destruct (N.eqb_spec c d) as [-> |]; inversion H; subst. constructor.
  - destruct (class_mem neg items c) eqn:E; inversion H; subst. by constructor.
  - destruct (nullable r1) eqn:E.
    + inversion H as [| | | | ? ? ? HL | ? ? ? HR | | |]; subst.
      * inversion HL as [| | | ? ? s1 s2 M1 M2 | | | | |]; subst.
        change (c :: s1 ++ s2) with ((c :: s1) ++ s2). constructor; auto.
      * change (c :: s) with ([] ++ c :: s).
        constructor; [by apply nullable_matches | auto].
    + inversion H as [| | | ? ? s1 s2 M1 M2 | | | | |]; subst.
      change (c :: s1 ++ s2) with ((c :: s1) ++ s2). constructor; auto.
  - inversion H; subst; [apply MAltL | apply MAltR]; auto.
  - inversion H as [| | | ? ? s1 s2 M1 M2 | | | | |]; subst.
    change (c :: s1 ++ s2) with ((c :: s1) ++ s2). constructor; auto.
  - inversion H as [| | | ? ? s1 s2 M1 M2 | | | | |]; subst.
    change (c :: s1 ++ s2) with ((c :: s1) ++ s2). constructor; auto.
Qed.

Lemma test_matches (r : regex) (s : jsstring) :
  test r s = true <-> matches r s.
Proof.
  revert r. induction s as [| c s IH]; intros r; simpl.
  - apply nullable_matches.
  - rewrite IH. split; [apply derive_matches | apply matches_derive].
Qed.

(** ** The two patterns of [validate] in plain terms *)

Lemma star_class_matches neg items (s : jsstring) :
  matches (Star (Class neg items)) s <->
  Forall (fun c => class_mem neg items c = true) s.
Proof.
  split.
  - intros H. remember (Star (Class neg items)) as r eqn:Er.
    induction H as [| | | | | | ? | r0 s1 s2 H1 _ H2 IH2 |]; try discriminate Er.
    + constructor.
    + injection Er as ->. inversion H1; subst. constructor; auto.
  - induction 1 as [| c s Hc _ IH].
    + constructor.
    + change (c :: s) with ([c] ++ s). constructor; [by constructor | exact IH].
Qed.

Lemma plus_class_matches neg items (s : jsstring) :
  matches (Plus (Class neg items)) s <->
  s <> [] /\ Forall (fun c => class_mem neg items c = true) s.
Proof.
  split.
  - inversion 1 as [| | | | | | | | ? s1 s2 H1 H2]; subst.
    inversion H1; subst. apply star_class_matches in H2.
    split; [discriminate | constructor; auto].
  - intros [Hne Hall]. destruct Hall as [| c s Hc Hs]; [done |].
    change (c :: s) with ([c] ++ s).
    constructor; [by constructor | by apply star_class_matches].
Qed.

Lemma letters_class (c : N) :
  class_mem false [Range 0x41 0x5A; Range 0x61 0x7A]%N c = is_letter c.
Proof.
  unfold class_mem, is_letter, existsb, item_mem.
  rewrite orb_false_r. reflexivity.
Qed.

Lemma plain_class (c : N) :
  class_mem true [Space; Single 0x40%N] c = plain_char c.
Proof.
  unfold class_mem, plain_char, existsb, item_mem.
  rewrite orb_false_r. destruct (is_space c), (c =? 0x40)%N; reflexivity.
Qed.

(** [lettersOnlyRegex] accepts the non-empty strings made of letters. *)
Lemma lettersOnlyRegex_test (s : jsstring) :
  test lettersOnlyRegex s = negb (bool_decide (s = [])) && forallb is_letter s.
Proof.
  apply eq_true_iff_eq.
  rewrite test_matches. unfold lettersOnlyRegex. rewrite plus_class_matches.
  rewrite andb_true_iff, negb_true_iff, bool_decide_eq_false, forallb_forall, Forall_forall.
  split; intros [Hne H]; (split; [exact Hne |]); intros x Hx;
    [rewrite <- letters_class | rewrite letters_class]; apply H;
    first [exact Hx | by apply list_elem_of_In | by apply list_elem_of_In in Hx].
Qed.

Lemma plain_plus_matches (s : jsstring) :
  matches (Plus not_space_or_at) s <->
  s <> [] /\ Forall (fun c => plain_char c = true) s.
Proof.
  unfold not_space_or_at. rewrite plus_class_matches.
  split; intros [Hne H]; (split; [exact Hne |]);
    (eapply Forall_impl; [exact H |]); intros x Hx; cbv beta in *.
  - by rewrite <- plain_class.
  - by rewrite plain_class.
Qed.

(** [emailRegex] accepts the strings of the shape the specification words. *)
Lemma emailRegex_shape (s : jsstring) :
  test emailRegex s = true <-> spec_email_shape s.
Proof.
  rewrite test_matches. unfold emailRegex, spec_email_shape. split.
  - intros H.
    inversion H as [| | | ? ? a s2 Ha H2 | | | | |]; subst.
    inversion H2 as [| | | ? ? at_ s3 Hat H3 | | | | |]; subst.
    inversion H3 as [| | | ? ? b s4 Hb H4 | | | | |]; subst.
    inversion H4 as [| | | ? ? dot c Hdot Hc | | | | |]; subst.
    inversion Hat; subst. inversion Hdot; subst.
    apply plain_plus_matches in Ha as [? ?].
    apply plain_plus_matches in Hb as [? ?].
    apply plain_plus_matches in Hc as [? ?].
    exists a, b, c. done.
  - intros (a & b & c & -> & Ha & Hb & Hc & Fa & Fb & Fc).
    repeat constructor; by apply plain_plus_matches.
Qed.

(** ** What the handlers do to the world *)

(** Two property names written differently are different strings. *)
Ltac key_ne :=
  let E := fresh "E" in
  intros E; vm_compute in E; discriminate E.

Lemma keys_empty (m : dict) :
  Nat.eqb (length (map_to_list m).*1) 0 = bool_decide (m = ∅).
Proof.
  rewrite length_fmap.
  destruct (decide (m = ∅)) as [-> | Hne].
  - rewrite map_to_list_empty. by rewrite bool_decide_eq_true_2.
  - rewrite bool_decide_eq_false_2 by done.
    apply Nat.eqb_neq. intros E. apply Hne.
    apply map_to_list_empty_iff. by apply nil_length_inv.
Qed.

Lemma run_handleOpen (w : world) :
  run handleOpen w =
  {| ctl := {| open := true; newCustomer := newCustomer (ctl w);
               errors := errors (ctl w); submitError := submitError (ctl w);
               isSubmitting := isSubmitting (ctl w) |};
     pending := pending w; revalidations := revalidations w |}.
Proof. reflexivity. Qed.

Lemma run_handleClose (w : world) :
  run handleClose w =
  {| ctl := {| open := false; newCustomer := emptyCustomer; errors := ∅;
               submitError := None; isSubmitting := isSubmitting (ctl w) |};
     pending := pending w; revalidations := revalidations w |}.
Proof. reflexivity. Qed.

Lemma run_handleChange (w : world) (e : ChangeEvent) :
  run (handleChange (ctl w) e) w =
  {| ctl := {| open := open (ctl w);
               newCustomer := <[name (target e) := value e]> (newCustomer (ctl w));
               errors := if truthy_opt (errors (ctl w) !! name (target e))
                         then <[name (target e) := []]> (errors (ctl w))
                         else errors (ctl w);
               submitError := submitError (ctl w);
               isSubmitting := isSubmitting (ctl w) |};
     pending := pending w; revalidations := revalidations w |}.
Proof.
  unfold run, handleChange.
  unfold mbind, M_bind, updNewCustomer, modify_state.
  destruct (truthy_opt _); reflexivity.
Qed.

Lemma validate_eq (r : state) (w : world) :
  validate r w =
  (inr (bool_decide (newErrors_of (newCustomer r) = ∅)),
   {| ctl := {| open := open (ctl w); newCustomer := newCustomer (ctl w);
                errors := newErrors_of (newCustomer r);
                submitError := submitError (ctl w);
                isSubmitting := isSubmitting (ctl w) |};
      pending := pending w; revalidations := revalidations w |}).
Proof. rewrite <- keys_empty. reflexivity. Qed.

Lemma handleSubmit_eq (r : state) (w : world) :
  handleSubmit r w =
  if bool_decide (newErrors_of (newCustomer r) = ∅) then
    (inr tt,
     {| ctl := {| open := open (ctl w); newCustomer := newCustomer (ctl w);
                  errors := newErrors_of (newCustomer r); submitError := None;
                  isSubmitting := true |};
        pending := pending w ++ [newCustomer r];
        revalidations := revalidations w |})
  else (inr tt, (validate r w).2).
Proof.
  unfold handleSubmit. unfold mbind at 1, M_bind at 1. rewrite validate_eq.
  destruct (bool_decide _); reflexivity.
Qed.

(** A request that went well: one [mutate], [handleClose], the [finally]. *)
Lemma settled_ok (response : Response) (w : world) :
  ok response = true ->
  run (handleSubmit_settled (Fulfilled response)) w =
  {| ctl := initial_state; pending := pending w;
     revalidations := S (revalidations w) |}.
Proof.
  intros Hok. unfold run, handleSubmit_settled, try_finally, try_catch.
  unfold mbind, M_bind, await. rewrite Hok. reflexivity.
Qed.

Lemma settled_rejected (err : thrown) (w : world) :
  run (handleSubmit_settled (Rejected err)) w = failed_with err w.
Proof. destruct err; reflexivity. Qed.

Lemma settled_not_ok (response : Response) (w : world) :
  ok response = false ->
  run (handleSubmit_settled (Fulfilled response)) w =
  failed_with
    (match json response with
     | inl err => err
     | inr errorData =>
         match get_message errorData with
         | inl err => err
         | inr message =>
             match new_Error
                     (or_else message (JString (js "Failed to create customer")))
             with
             | inl err => err
             | inr err => err
             end
         end
     end) w.
Proof.
  intros Hok. unfold run, handleSubmit_settled, try_finally, try_catch.
  unfold mbind, M_bind, await, attempt. rewrite Hok. cbn [negb].
  destruct (json response) as [err | errorData].
  - destruct err; reflexivity.
  - destruct (get_message errorData) as [err | message].
    + destruct err; reflexivity.
    + destruct (new_Error _) as [err | err]; destruct err; reflexivity.
Qed.

(** ** The error map built by [validate] *)

Lemma check_firstName_eq (c e : dict) :
  check_firstName c e =
  match firstName_verdict c with
  | Some m => <[js "firstName" := m]> e
  | None => e
  end.
Proof.
  unfold check_firstName, firstName_verdict.
  destruct (c !! js "firstName") as [[| x v] |]; try reflexivity.
  cbn [default from_option id spec_name_rule]. rewrite lettersOnlyRegex_test.
  rewrite bool_decide_eq_false_2 by discriminate.
  cbn [negb andb]. by destruct (forallb is_letter (x :: v)).
Qed.

Lemma check_lastName_eq (c e : dict) :
  check_lastName c e =
  match lastName_verdict c with
  | Some m => <[js "lastName" := m]> e
  | None => e
  end.
Proof.
  unfold check_lastName, lastName_verdict.
  destruct (c !! js "lastName") as [[| x v] |]; try reflexivity.
  cbn [default from_option id spec_name_rule]. rewrite lettersOnlyRegex_test.
  rewrite bool_decide_eq_false_2 by discriminate.
  cbn [negb andb]. by destruct (forallb is_letter (x :: v)).
Qed.

Lemma check_email_eq (c e : dict) :
  check_email c e =
  match email_verdict c with
  | Some m => <[js "email" := m]> e
  | None => e
  end.
Proof.
  unfold check_email, email_verdict.
  destruct (c !! js "email") as [[| x v] |]; try reflexivity.
  cbn [default from_option id]. by destruct (test emailRegex (x :: v)).
Qed.

(** Entry by entry: the three validated fields carry their verdict, every
    other property name is absent. *)
Lemma newErrors_lookup (c : dict) (k : jsstring) :
  newErrors_of c !! k =
  if decide (k = js "email") then email_verdict c
  else if decide (k = js "lastName") then lastName_verdict c
  else if decide (k = js "firstName") then firstName_verdict c
  else None.
Proof.
  assert (js "email" <> js "lastName") by key_ne.
  assert (js "email" <> js "firstName") by key_ne.
  assert (js "lastName" <> js "firstName") by key_ne.
  unfold newErrors_of.
  rewrite check_email_eq, check_lastName_eq, check_firstName_eq.
  destruct (email_verdict c), (lastName_verdict c), (firstName_verdict c);
    repeat case_decide; subst;
    repeat first [ rewrite lookup_insert_eq | rewrite lookup_insert_ne by congruence
                 | rewrite lookup_empty ];
    congruence.
Qed.

Lemma spec_name_rule_None (req fmt v : jsstring) :
  spec_name_rule req fmt v = None <-> name_ok v.
Proof.
  unfold spec_name_rule, name_ok. destruct v as [| x v].
  - split; [discriminate | intros [? _]; done].
  - destruct (forallb is_letter (x :: v)) eqn:E.
    + split; [intros _ | done]. split; [discriminate |].
      apply Forall_forall. intros y Hy.
      apply (proj1 (forallb_forall _ _) E). by apply list_elem_of_In.
    + split; [discriminate |]. intros [_ H]. exfalso.
      assert (forallb is_letter (x :: v) = true); [| congruence].
      apply forallb_forall. intros y Hy.
      apply (proj1 (Forall_forall _ _) H). by apply list_elem_of_In.
Qed.

Lemma email_verdict_None (c : dict) :
  email_verdict c = None <-> spec_email_shape (default [] (c !! js "email")).
Proof.
  unfold email_verdict. destruct (default [] (c !! js "email")) as [| x v] eqn:E.
  - split; [discriminate |].
    intros (a & b & d & Heq & _). by destruct a.
  - rewrite <- emailRegex_shape.
    destruct (test emailRegex (x :: v)); split; congruence.
Qed.

Lemma newErrors_None (c : dict) (k : jsstring) :
  newErrors_of c !! k = None <-> spec_field_ok c k.
Proof.
  assert (js "email" <> js "lastName") by key_ne.
  assert (js "email" <> js "firstName") by key_ne.
  assert (js "lastName" <> js "firstName") by key_ne.
  rewrite newErrors_lookup. unfold spec_field_ok.
  repeat case_decide; subst.
  - rewrite email_verdict_None. split; [intros ?; split_and!; congruence || done | intros (_ & _ & H'); by apply H'].
  - unfold lastName_verdict. rewrite spec_name_rule_None.
    split; [intros ?; split_and!; congruence || done | intros (_ & H' & _); by apply H'].
  - unfold firstName_verdict. rewrite spec_name_rule_None.
    split; [intros ?; split_and!; congruence || done | intros (H' & _ & _); by apply H'].
  - split; [intros _; split_and!; congruence | done].
Qed.

(** ** Validation *)

Lemma forallb_false_Exists {A} (f : A -> bool) (l : list A) :
  forallb f l = false <-> Exists (fun x => f x = false) l.
Proof.
  induction l as [| x l IH]; simpl.
  - split; [discriminate | inversion 1].
  - rewrite andb_false_iff, IH. split.
    + intros [H | H]; [by apply Exists_cons_hd | by apply Exists_cons_tl].
    + inversion 1; subst; auto.
Qed.

Lemma spec_name_rule_cases (req fmt v : jsstring) :
  (v = [] -> spec_name_rule req fmt v = Some req) /\
  (v <> [] ->
   (spec_name_rule req fmt v = Some fmt <-> Exists (fun c => is_letter c = false) v)) /\
  (name_ok v -> spec_name_rule req fmt v = None).
Proof.
  split_and!.
  - by intros ->.
  - intros Hne. rewrite <- forallb_false_Exists.
    destruct v as [| x v]; [done |]. unfold spec_name_rule.
    destruct (forallb is_letter (x :: v)); split; congruence.
  - apply spec_name_rule_None.
Qed.

Lemma validate_errors (r : state) (w : world) :
  errors (ctl (run (validate r) w)) = newErrors_of (newCustomer r).
Proof. unfold run. rewrite validate_eq. reflexivity. Qed.

(** C2.  [validate] answers [true] exactly when every field is in order, and
    it puts in place of the whole error map the map of the fields that are
    not: a field in order has no entry, whatever the map held before, and
    [businessName], which has no rule, never has one.  Nothing else of the
    state changes. *)
Theorem validate_replaces_errors (r : state) (w : world) :
  let c := newCustomer r in
  let w' := run (validate r) w in
  (exists b : bool,
      (validate r w).1 = inr b /\
      (b = true <-> forall k, spec_field_ok c k) /\
      (b = true <-> errors (ctl w') = ∅)) /\
  (forall k, errors (ctl w') !! k = None <-> spec_field_ok c k) /\
  errors (ctl w') = newErrors_of c /\
  errors (ctl w') !! js "businessName" = None /\
  open (ctl w') = open (ctl w) /\
  newCustomer (ctl w') = newCustomer (ctl w) /\
  submitError (ctl w') = submitError (ctl w) /\
  isSubmitting (ctl w') = isSubmitting (ctl w) /\
  pending w' = pending w /\
  revalidations w' = revalidations w.
Proof.
  intros c w'. subst w'. rewrite validate_errors. fold c.
  unfold run. rewrite validate_eq. fold c. cbn [fst snd ctl pending revalidations
    open newCustomer submitError isSubmitting].
  split_and!; try reflexivity.
  - exists (bool_decide (newErrors_of c = ∅)). split_and!; [reflexivity | |].
    + rewrite bool_decide_eq_true. split.
      * intros E k. apply newErrors_None. rewrite E. apply lookup_empty.
      * intros H. apply map_empty. intros k. by apply newErrors_None.
    + by rewrite bool_decide_eq_true.
  - apply newErrors_None.
  - apply newErrors_None. unfold spec_field_ok.
    split_and!; intros E; exfalso; revert E; key_ne.
Qed.

(** C3.  After [validate], the entry of [firstName] (and likewise the one of
    [lastName]) is the "required" message when the name is empty, with no
    regard to its format; for a non-empty name it is the "only letters"
    message exactly when some character is not in A-Z or a-z, and there is no
    entry when the name is non-empty and all letters. *)
Theorem validate_names (r : state) (w : world) (first last : jsstring) :
  newCustomer r !! js "firstName" = Some first ->
  newCustomer r !! js "lastName" = Some last ->
  let errs := errors (ctl (run (validate r) w)) in
  (first = [] -> errs !! js "firstName" = Some (js "First name is required")) /\
  (first <> [] ->
   (errs !! js "firstName" = Some (js "First name should contain only letters")
    <-> Exists (fun c => is_letter c = false) first)) /\
  (name_ok first -> errs !! js "firstName" = None) /\
  (last = [] -> errs !! js "lastName" = Some (js "Last name is required")) /\
  (last <> [] ->
   (errs !! js "lastName" = Some (js "Last name should contain only letters")
    <-> Exists (fun c => is_letter c = false) last)) /\
  (name_ok last -> errs !! js "lastName" = None) /\
  errs !! js "firstName" =
    spec_name_rule (js "First name is required")
      (js "First name should contain only letters") first /\
  errs !! js "lastName" =
    spec_name_rule (js "Last name is required")
      (js "Last name should contain only letters") last.
Proof.
  intros Hfirst Hlast errs. subst errs. rewrite validate_errors.
  assert (js "firstName" <> js "email") by key_ne.
  assert (js "firstName" <> js "lastName") by key_ne.
  assert (js "lastName" <> js "email") by key_ne.
  rewrite !newErrors_lookup.
  rewrite decide_False, decide_False, decide_True by done.
  rewrite decide_False, decide_True by done.
  unfold firstName_verdict, lastName_verdict. rewrite Hfirst, Hlast.
  cbn [default from_option id].
  pose proof (spec_name_rule_cases (js "First name is required")
    (js "First name should contain only letters") first) as (? & ? & ?).
  pose proof (spec_name_rule_cases (js "Last name is required")
    (js "Last name should contain only letters") last) as (? & ? & ?).
  split_and!; done.
Qed.

Lemma plain_char_not_at (c : N) : plain_char c = true -> c <> 0x40%N.
Proof.
  unfold plain_char. intros H ->. rewrite andb_true_iff in H.
  destruct H as [_ H]. discriminate H.
Qed.

Lemma count_at_plain (a : jsstring) :
  Forall (fun x => plain_char x = true) a -> count_occ N.eq_dec a 0x40%N = 0.
Proof.
  induction 1 as [| x a Hx _ IH]; [reflexivity |].
  rewrite count_occ_cons_neq; [exact IH | by apply plain_char_not_at].
Qed.

Lemma after_at_plain (a rest : jsstring) :
  Forall (fun x => plain_char x = true) a ->
  after_at (a ++ 0x40%N :: rest) = Some rest.
Proof.
  induction 1 as [| x a Hx _ IH]; [reflexivity |].
  cbn [app after_at]. apply plain_char_not_at, N.eqb_neq in Hx.
  rewrite Hx. exact IH.
Qed.

(** A string of the e-mail shape has exactly one [@] and a dot after it. *)
Lemma email_shape_one_at_then_dot (s : jsstring) :
  spec_email_shape s -> one_at_then_dot s = true.
Proof.
  intros (a & b & c & -> & _ & _ & _ & Fa & Fb & Fc).
  unfold one_at_then_dot. apply andb_true_iff. split.
  - rewrite !count_occ_app.
    rewrite (count_at_plain a), (count_at_plain b), (count_at_plain c) by done.
    reflexivity.
  - cbn [app]. rewrite after_at_plain by done.
    rewrite existsb_app. cbn [existsb]. rewrite N.eqb_refl.
    by rewrite orb_true_r.
Qed.

Lemma email_entry (r : state) (w : world) (email : jsstring) :
  newCustomer r !! js "email" = Some email ->
  errors (ctl (run (validate r) w)) !! js "email" =
  match email with
  | [] => Some (js "Email is required")
  | _ :: _ =>
      if test emailRegex email then None
      else Some (js "Email should be valid (e.g., user@example.com)")
  end.
Proof.
  intros H. rewrite validate_errors, newErrors_lookup, decide_True by done.
  unfold email_verdict. rewrite H. cbn [default from_option id].
  by destruct email.
Qed.

(** C4.  After [validate] the e-mail has no entry exactly when it has the
    shape "plain characters, [@], plain characters, dot, plain characters"
    (each run non-empty, plain meaning neither whitespace nor [@]).  An empty
    e-mail gets the "required" message; a non-empty one that does not have
    exactly one [@] with a dot after it gets the "valid email" message.
    [user@example.com] passes; [user@example] and [user example.com] fail. *)
Theorem validate_email (r : state) (w : world) (email : jsstring) :
  newCustomer r !! js "email" = Some email ->
  let entry (r : state) := errors (ctl (run (validate r) w)) !! js "email" in
  (entry r = None <-> spec_email_shape email) /\
  (email = [] -> entry r = Some (js "Email is required")) /\
  (email <> [] -> ~ spec_email_shape email ->
   entry r = Some (js "Email should be valid (e.g., user@example.com)")) /\
  (email <> [] -> one_at_then_dot email = false ->
   entry r = Some (js "Email should be valid (e.g., user@example.com)")) /\
  (forall r', newCustomer r' !! js "email" = Some (js "user@example.com") ->
              entry r' = None) /\
  (forall r', newCustomer r' !! js "email" = Some (js "user@example") ->
              entry r' = Some (js "Email should be valid (e.g., user@example.com)")) /\
  (forall r', newCustomer r' !! js "email" = Some (js "user example.com") ->
              entry r' = Some (js "Email should be valid (e.g., user@example.com)")).
Proof.
  intros H entry.
  assert (Hshape : email <> [] -> ~ spec_email_shape email ->
    entry r = Some (js "Email should be valid (e.g., user@example.com)")).
  { intros Hne Hno. subst entry. cbv beta. rewrite (email_entry r w email H).
    destruct email as [| x v]; [done |].
    destruct (test emailRegex (x :: v)) eqn:E; [| done].
    exfalso. by apply Hno, emailRegex_shape. }
  split_and!.
  - subst entry. cbv beta. rewrite (email_entry r w email H).
    destruct email as [| x v].
    + split; [discriminate |]. intros (a & b & c & Heq & _). by destruct a.
    + rewrite <- emailRegex_shape.
      destruct (test emailRegex (x :: v)); split; congruence.
  - intros ->. subst entry. cbv beta. by rewrite (email_entry r w [] H).
  - exact Hshape.
  - intros Hne Hno. apply Hshape; [exact Hne |].
    intros Hs. apply email_shape_one_at_then_dot in Hs. congruence.
  - intros r' H'. subst entry. cbv beta. by rewrite (email_entry r' w _ H').
  - intros r' H'. subst entry. cbv beta. by rewrite (email_entry r' w _ H').
  - intros r' H'. subst entry. cbv beta. by rewrite (email_entry r' w _ H').
Qed.

(** ** Closing, editing, submitting *)

Lemma emptyCustomer_lookup (i : input) : emptyCustomer !! name i = Some [].
Proof. destruct i; vm_compute; reflexivity. Qed.

(** C8.  From any state [handleClose] leaves the dialog closed, every field
    of the draft empty, no validation error and no submit error; a second
    [handleClose] changes nothing more. *)
Theorem handleClose_idempotent (w : world) :
  let w1 := run handleClose w in
  open (ctl w1) = false /\
  newCustomer (ctl w1) = emptyCustomer /\
  (forall i : input, newCustomer (ctl w1) !! name i = Some []) /\
  errors (ctl w1) = ∅ /\
  submitError (ctl w1) = None /\
  run handleClose w1 = w1 /\
  isSubmitting (ctl w1) = isSubmitting (ctl w) /\
  pending w1 = pending w /\
  revalidations w1 = revalidations w.
Proof.
  intros w1. subst w1. rewrite !run_handleClose.
  cbn [ctl open newCustomer errors submitError isSubmitting pending revalidations].
  split_and!; try reflexivity. apply emptyCustomer_lookup.
Qed.

(** C9.  A change of field [f] to [v] writes [v] at [f] in the draft and
    leaves the other fields as they were.  In the error map the entry of [f]
    is emptied when it held a message and nothing else moves: the other
    entries are the same, the map has the same keys, no message appears that
    was not there, and a field without a message leaves the map untouched.
    Nothing else of the state changes. *)
Theorem handleChange_frame (w : world) (e : ChangeEvent) :
  let f := name (target e) in
  let w' := run (handleChange (ctl w) e) w in
  newCustomer (ctl w') !! f = Some (value e) /\
  (forall k, k <> f -> newCustomer (ctl w') !! k = newCustomer (ctl w) !! k) /\
  (forall k, k <> f -> errors (ctl w') !! k = errors (ctl w) !! k) /\
  (truthy_opt (errors (ctl w) !! f) = true -> errors (ctl w') !! f = Some []) /\
  (truthy_opt (errors (ctl w) !! f) = false -> errors (ctl w') = errors (ctl w)) /\
  dom (errors (ctl w')) = dom (errors (ctl w)) /\
  (forall k, truthy_opt (errors (ctl w') !! k) = true ->
             errors (ctl w') !! k = errors (ctl w) !! k) /\
  open (ctl w') = open (ctl w) /\
  submitError (ctl w') = submitError (ctl w) /\
  isSubmitting (ctl w') = isSubmitting (ctl w) /\
  pending w' = pending w /\
  revalidations w' = revalidations w.
Proof.
  intros f w'. subst w'. rewrite run_handleChange. fold f.
  cbn [ctl open newCustomer errors submitError isSubmitting pending revalidations].
  split_and!; try reflexivity.
  - apply lookup_insert_eq.
  - intros k Hk. by apply lookup_insert_ne.
  - intros k Hk. destruct (truthy_opt _); [by apply lookup_insert_ne | done].
  - intros ->. apply lookup_insert_eq.
  - by intros ->.
  - destruct (truthy_opt (errors (ctl w) !! f)) eqn:E; [| done].
    apply dom_insert_lookup_L.
    destruct (errors (ctl w) !! f); [by eexists | discriminate E].
  - intros k. destruct (truthy_opt (errors (ctl w) !! f)) eqn:E; [| done].
    destruct (decide (k = f)) as [-> | Hk].
    + rewrite lookup_insert_eq. discriminate.
    + by rewrite lookup_insert_ne.
Qed.

Lemma validate_result (r : state) (w : world) (b : bool) :
  (validate r w).1 = inr b <-> bool_decide (newErrors_of (newCustomer r) = ∅) = b.
Proof. rewrite validate_eq. cbn [fst]. split; congruence. Qed.

(** C7.  When [validate] answers [false], [handleSubmit] does what
    [validate] did and no more: no request is sent, the dialog and the rest
    of the state stay as they were, and the error map is the non-empty one
    [validate] built. *)
Theorem invalid_submit_sends_nothing (w : world) :
  (validate (ctl w) w).1 = inr false ->
  let w' := run (handleSubmit (ctl w)) w in
  w' = run (validate (ctl w)) w /\
  pending w' = pending w /\
  revalidations w' = revalidations w /\
  open (ctl w') = open (ctl w) /\
  isSubmitting (ctl w') = isSubmitting (ctl w) /\
  submitError (ctl w') = submitError (ctl w) /\
  newCustomer (ctl w') = newCustomer (ctl w) /\
  errors (ctl w') = newErrors_of (newCustomer (ctl w)) /\
  errors (ctl w') <> ∅.
Proof.
  intros H w'. subst w'. apply validate_result in H.
  unfold run. rewrite handleSubmit_eq, H. cbn [snd].
  rewrite validate_eq.
  cbn [snd ctl open newCustomer errors submitError isSubmitting pending revalidations].
  split_and!; try reflexivity.
  by apply bool_decide_eq_false in H.
Qed.

(** ** Requests in flight *)

Lemma delete_last {A} (l : list A) (x : A) : delete (length l) (l ++ [x]) = l.
Proof. by rewrite (delete_middle l [] x), app_nil_r. Qed.

Lemma valid_submit (w : world) :
  newErrors_of (newCustomer (ctl w)) = ∅ ->
  run (handleSubmit (ctl w)) w =
  {| ctl := {| open := open (ctl w); newCustomer := newCustomer (ctl w);
               errors := ∅; submitError := None; isSubmitting := true |};
     pending := pending w ++ [newCustomer (ctl w)];
     revalidations := revalidations w |}.
Proof.
  intros H. unfold run. rewrite handleSubmit_eq.
  rewrite bool_decide_eq_true_2 by done. rewrite H. reflexivity.
Qed.

(** However a request settles, [isSubmitting] is false afterwards and the
    list of pending requests is not touched. *)
Lemma settled_frame (res : fetch_result) (w : world) :
  isSubmitting (ctl (run (handleSubmit_settled res) w)) = false /\
  pending (run (handleSubmit_settled res) w) = pending w.
Proof.
  destruct res as [err | response].
  - rewrite settled_rejected. done.
  - destruct (ok response) eqn:E.
    + rewrite settled_ok by done. done.
    + rewrite settled_not_ok by done. done.
Qed.

Lemma step_in_flight (w w' : world) :
  step w w' ->
  length (pending w) = (if isSubmitting (ctl w) then 1 else 0) ->
  length (pending w') = (if isSubmitting (ctl w') then 1 else 0).
Proof.
  intros Hstep Hinv.
  destruct Hstep as [w | w | w e | w Hen | w i body res Hi].
  - rewrite run_handleOpen. exact Hinv.
  - rewrite run_handleClose. exact Hinv.
  - rewrite run_handleChange. exact Hinv.
  - unfold submit_disabled in Hen. rewrite Hen in Hinv.
    unfold run. rewrite handleSubmit_eq.
    destruct (bool_decide _).
    + cbn [snd ctl pending isSubmitting]. rewrite length_app, Hinv. reflexivity.
    + rewrite validate_eq. cbn [snd ctl pending isSubmitting]. by rewrite Hen.
  - destruct (settled_frame res (settle_request i w)) as [-> ->].
    cbn [settle_request pending]. rewrite length_delete by (by eexists).
    apply lookup_lt_Some in Hi.
    destruct (isSubmitting (ctl w)); lia.
Qed.

(** C1, as the code has it.  The guard against a second submission is the
    [disabled] prop of the submit button, which is [isSubmitting]: over the
    events the page can deliver, a request is in flight exactly while
    [isSubmitting] holds, so never more than one.  [handleSubmit] itself does
    not look at [isSubmitting]: called on a draft that passes validation it
    sends a request, whatever the state. *)
Theorem one_submission_through_the_view :
  (forall w, reachable w ->
     length (pending w) = (if isSubmitting (ctl w) then 1 else 0) /\
     length (pending w) <= 1) /\
  (forall s, submit_disabled s = isSubmitting s) /\
  (forall w, newErrors_of (newCustomer (ctl w)) = ∅ ->
     pending (run (handleSubmit (ctl w)) w) = pending w ++ [newCustomer (ctl w)]).
Proof.
  split_and!.
  - intros w Hw.
    assert (length (pending w) = (if isSubmitting (ctl w) then 1 else 0)) as H.
    { induction Hw as [| w w' _ IH Hstep]; [reflexivity |].
      by apply (step_in_flight w w'). }
    split; [exact H |]. rewrite H. destruct (isSubmitting (ctl w)); lia.
  - reflexivity.
  - intros w H. by rewrite valid_submit.
Qed.

(** C1, as stated, fails: with Jane Doe's request in flight, a second call
    of [handleSubmit] sends her draft again and the world is not the same. *)
Lemma second_submit_sends_again :
  isSubmitting (ctl (submitting jane)) = true /\
  pending (submitting jane) = [jane] /\
  pending (run (handleSubmit (ctl (submitting jane))) (submitting jane))
    = [jane; jane] /\
  run (handleSubmit (ctl (submitting jane))) (submitting jane) <> submitting jane.
Proof.
  assert (pending (run (handleSubmit (ctl (submitting jane))) (submitting jane))
          = [jane; jane]) as H by (vm_compute; reflexivity).
  split_and!; [reflexivity | reflexivity | exact H |].
  intros E. rewrite E in H. discriminate H.
Qed.

(** C6.  A submit on a draft that passes validation sends one request
    carrying the draft; when it settles with an [ok] response, [mutate] is
    called once, the dialog is closed, the draft is back to empty strings,
    both kinds of error are cleared and [isSubmitting] is false: the state
    [handleClose] leaves, with the submission over. *)
Theorem successful_create_resets (w : world) (response : Response) :
  (validate (ctl w) w).1 = inr true ->
  ok response = true ->
  let w1 := run (handleSubmit (ctl w)) w in
  let w2 := run (handleSubmit_settled (Fulfilled response))
                (settle_request (length (pending w)) w1) in
  pending w1 = pending w ++ [newCustomer (ctl w)] /\
  revalidations w1 = revalidations w /\
  revalidations w2 = S (revalidations w) /\
  ctl w2 = {| open := false; newCustomer := emptyCustomer; errors := ∅;
              submitError := None; isSubmitting := false |} /\
  (forall i : input, newCustomer (ctl w2) !! name i = Some []) /\
  open (ctl w2) = open (ctl (run handleClose w1)) /\
  newCustomer (ctl w2) = newCustomer (ctl (run handleClose w1)) /\
  errors (ctl w2) = errors (ctl (run handleClose w1)) /\
  submitError (ctl w2) = submitError (ctl (run handleClose w1)) /\
  pending w2 = pending w.
Proof.
  intros Hvalid Hok w1 w2. subst w2 w1.
  apply validate_result, bool_decide_eq_true in Hvalid.
  rewrite valid_submit by done. rewrite settled_ok by done.
  rewrite run_handleClose.
  cbn [settle_request ctl open newCustomer errors submitError isSubmitting
       pending revalidations initial_state].
  split_and!; try reflexivity.
  - apply emptyCustomer_lookup.
  - apply delete_last.
Qed.

(** C5, as the code has it.  A submit on a draft that passes validation,
    answered by a response that is not [ok] and whose body is a JSON value
    with message property [message] (undefined when the body has none).  The
    submit error is [message] itself when it is a non-empty string, and
    ['Failed to create customer'] when it is missing or falsy, the empty
    string included.  Any other truthy [message] is shown as JavaScript
    converts it to a string, and when that conversion raises, the message of
    the error it raises is shown.  The dialog is as open as it was, the
    submit button is enabled again, the draft is unchanged, the error map is
    empty, and no request is left pending. *)
Theorem failed_create_keeps_dialog
    (w : world) (response : Response) (errorData message : jsval) :
  (validate (ctl w) w).1 = inr true ->
  ok response = false ->
  json response = inr errorData ->
  get_message errorData = inr message ->
  let w1 := run (handleSubmit (ctl w)) w in
  let w2 := run (handleSubmit_settled (Fulfilled response))
                (settle_request (length (pending w)) w1) in
  (forall m, message = JString m -> m <> [] -> submitError (ctl w2) = Some m) /\
  (ToBoolean message = false ->
   submitError (ctl w2) = Some (js "Failed to create customer")) /\
  (forall text, ToBoolean message = true -> ToString message = inr text ->
                submitError (ctl w2) = Some text) /\
  (forall err, ToBoolean message = true -> ToString message = inl err ->
               submitError (ctl w2) = Some (thrown_message err)) /\
  open (ctl w2) = open (ctl w) /\
  isSubmitting (ctl w2) = false /\
  submit_disabled (ctl w2) = false /\
  newCustomer (ctl w2) = newCustomer (ctl w) /\
  errors (ctl w2) = ∅ /\
  pending w2 = pending w /\
  revalidations w2 = revalidations w.
Proof.
  intros Hvalid Hok Hjson Hmsg w1 w2. subst w2 w1.
  apply validate_result, bool_decide_eq_true in Hvalid.
  rewrite valid_submit by done. rewrite settled_not_ok by done.
  rewrite Hjson, Hmsg. unfold failed_with, new_Error, or_else, submit_disabled.
  cbn [settle_request ctl open newCustomer errors submitError isSubmitting
       pending revalidations].
  split_and!; try reflexivity.
  - intros m -> Hm. by destruct m.
  - by intros ->.
  - intros text -> ->. reflexivity.
  - intros err -> ->. reflexivity.
  - apply delete_last.
Qed.

(** A [400] whose body is [{"message": {"toString": 0}}]: the message is an
    object, hence truthy, and cannot be made a string; the submit error is
    the message of the [TypeError] of the conversion. *)
Example unconvertible_message_shows_type_error :
  submitError
    (ctl (run (handleSubmit_settled
                 (Fulfilled
                    (bad_request_value
                       (JObject [(js "toString", JNumber true (js "0"))]))))
              (settle_request 0
                 (run (handleSubmit (ctl (editing jane))) (editing jane)))))
  = Some not_primitive_message.
Proof. vm_compute. reflexivity. Qed.

(** C5, as stated, fails: a [400] whose body is [{"message": ""}] has a
    message property, the empty string, and the submit error is not that
    string but the fallback. *)
Lemma empty_message_falls_back :
  json (bad_request []) = inr (JObject [(js "message", JString [])]) /\
  get_message (JObject [(js "message", JString [])]) = inr (JString []) /\
  submitError
    (ctl (run (handleSubmit_settled (Fulfilled (bad_request [])))
              (settle_request 0
                 (run (handleSubmit (ctl (editing jane))) (editing jane)))))
    = Some (js "Failed to create customer") /\
  submitError
    (ctl (run (handleSubmit_settled (Fulfilled (bad_request [])))
              (settle_request 0
                 (run (handleSubmit (ctl (editing jane))) (editing jane)))))
    <> Some [].
Proof.
  assert (submitError
    (ctl (run (handleSubmit_settled (Fulfilled (bad_request [])))
              (settle_request 0
                 (run (handleSubmit (ctl (editing jane))) (editing jane)))))
    = Some (js "Failed to create customer")) as H by (vm_compute; reflexivity).
  split_and!; [reflexivity | vm_compute; reflexivity | exact H |].
  rewrite H. vm_compute. discriminate.
Qed.

(** C10, as the code has it.  A request is in flight; the dialog is closed,
    which clears the submit error; the request then fails.  The failure is
    recorded in the closed dialog, and [handleOpen], which only opens, brings
    the dialog back with that error in its state.  The banner shows it when
    the message is not empty, and shows nothing when it is empty.  The
    message is the raised error's own for a rejected [fetch]; for a response
    that is not [ok] it is the body's message when that is a non-empty
    string, and ['Failed to create customer'] when it is missing or falsy:
    those are never empty and are shown. *)
Theorem late_failure_survives_close
    (w : world) (i : nat) (body : dict) (res : fetch_result) :
  pending w !! i = Some body ->
  is_failure res = true ->
  let w1 := run handleClose w in
  let w2 := run (handleSubmit_settled res) (settle_request i w1) in
  let w3 := run handleOpen w2 in
  open (ctl w1) = false /\
  submitError (ctl w1) = None /\
  pending w1 !! i = Some body /\
  exists msg : jsstring,
    open (ctl w2) = false /\
    submitError (ctl w2) = Some msg /\
    open (ctl w3) = true /\
    submitError (ctl w3) = Some msg /\
    banner (ctl w3) = (if truthy msg then Some msg else None) /\
    (forall err, res = Rejected err -> msg = thrown_message err) /\
    (forall response errorData message,
       res = Fulfilled response ->
       json response = inr errorData ->
       get_message errorData = inr message ->
       (forall m, message = JString m -> m <> [] ->
                  msg = m /\ banner (ctl w3) = Some m) /\
       (ToBoolean message = false ->
        msg = js "Failed to create customer" /\
        banner (ctl w3) = Some (js "Failed to create customer"))).
Proof.
  intros Hi Hfail w1 w2 w3. subst w3 w2 w1.
  rewrite run_handleOpen, run_handleClose.
  cbn [ctl open submitError pending].
  split_and!; [reflexivity | reflexivity | exact Hi |].
  destruct res as [err | response].
  - exists (thrown_message err). rewrite settled_rejected.
    unfold failed_with, banner. cbn [settle_request ctl open submitError].
    split_and!; try reflexivity.
    + by intros err' [= <-].
    + intros response errorData message E. discriminate E.
  - apply negb_true_iff in Hfail. rewrite settled_not_ok by done.
    eexists. unfold failed_with, banner.
    cbn [settle_request ctl open submitError].
    split_and!; try reflexivity.
    + intros err E. discriminate E.
    + intros response' errorData message [= <-] Hjson Hmsg.
      rewrite Hjson, Hmsg. unfold new_Error, or_else. split.
      * intros m -> Hm. destruct m as [| x m]; [done |]. by cbn.
      * intros ->. split; [reflexivity | vm_compute; reflexivity].
Qed.

(** C10, as stated, fails: Jane Doe's request is in flight, the dialog is
    closed, and the request comes back [400] with body [{"message": []}].
    The empty array is truthy and prints as the empty string, so the submit
    error is set, to the empty string; the reopened dialog holds it and its
    banner shows nothing. *)
Lemma late_empty_message_not_shown :
  pending (submitting jane) !! 0 = Some jane /\
  is_failure (Fulfilled (bad_request_value (JArray []))) = true /\
  submitError
    (ctl (run (handleSubmit_settled (Fulfilled (bad_request_value (JArray []))))
              (settle_request 0 (run handleClose (submitting jane)))))
    = Some [] /\
  open
    (ctl (run handleOpen
            (run (handleSubmit_settled
                    (Fulfilled (bad_request_value (JArray []))))
                 (settle_request 0 (run handleClose (submitting jane))))))
    = true /\
  banner
    (ctl (run handleOpen
            (run (handleSubmit_settled
                    (Fulfilled (bad_request_value (JArray []))))
                 (settle_request 0 (run handleClose (submitting jane))))))
    = None.
Proof. split_and!; vm_compute; reflexivity. Qed.

(** ** The theorems at work on sample data *)

(** Jane Doe's draft passes: [validate] answers [true] and leaves the error
    map empty. *)
Example validate_jane :
  (validate (ctl (editing jane)) (editing jane)).1 = inr true /\
  errors (ctl (run (validate (ctl (editing jane))) (editing jane))) = ∅.
Proof. split; vm_compute; reflexivity. Qed.

(** Typing Jane Doe's data into the opened dialog and submitting is a run of
    the page, and leaves her request in flight. *)
Example reachable_submitting_jane :
  exists w, reachable w /\ pending w = [jane] /\ isSubmitting (ctl w) = true.
Proof.
  pose (w0 := initial_world).
  pose (w1 := run handleOpen w0).
  pose (w2 := run (handleChange (ctl w1) {| target := Email; value := js "jane@doe.com" |}) w1).
  pose (w3 := run (handleChange (ctl w2) {| target := LastName; value := js "Doe" |}) w2).
  pose (w4 := run (handleChange (ctl w3) {| target := FirstName; value := js "Jane" |}) w3).
  exists (run (handleSubmit (ctl w4)) w4). split_and!.
  - apply (reachable_step w4); [| apply step_submit; reflexivity].
    apply (reachable_step w3); [| apply step_change].
    apply (reachable_step w2); [| apply step_change].
    apply (reachable_step w1); [| apply step_change].
    apply (reachable_step w0); [| apply step_open].
    apply reachable_initial.
  - vm_compute. reflexivity.
  - vm_compute. reflexivity.
Qed.

(** [validate_names] on a draft with first name [Anne-Marie] and an empty
    last name: the hyphen gives the format message, the empty name the
    required one. *)
Lemma validate_names_witness :
  newCustomer (ctl (editing anne_marie)) !! js "firstName" = Some (js "Anne-Marie") /\
  newCustomer (ctl (editing anne_marie)) !! js "lastName" = Some [] /\
  errors (ctl (run (validate (ctl (editing anne_marie))) (editing anne_marie)))
    !! js "firstName" = Some (js "First name should contain only letters") /\
  errors (ctl (run (validate (ctl (editing anne_marie))) (editing anne_marie)))
    !! js "lastName" = Some (js "Last name is required").
Proof.
  assert (newCustomer (ctl (editing anne_marie)) !! js "firstName"
          = Some (js "Anne-Marie")) as H1 by (vm_compute; reflexivity).
  assert (newCustomer (ctl (editing anne_marie)) !! js "lastName" = Some [])
    as H2 by (vm_compute; reflexivity).
  destruct (validate_names (ctl (editing anne_marie)) (editing anne_marie)
              (js "Anne-Marie") [] H1 H2) as (_ & Hfmt & _ & Hreq & _).
  split_and!; [exact H1 | exact H2 | | by apply Hreq].
  apply Hfmt; [discriminate |].
  apply forallb_false_Exists. vm_compute. reflexivity.
Defined.

(** [validate_email] on a draft whose e-mail is [user@example.com]. *)
Lemma validate_email_witness :
  newCustomer (ctl (editing anne_marie)) !! js "email" = Some (js "user@example.com") /\
  errors (ctl (run (validate (ctl (editing anne_marie))) (editing anne_marie)))
    !! js "email" = None.
Proof.
  assert (newCustomer (ctl (editing anne_marie)) !! js "email"
          = Some (js "user@example.com")) as H by (vm_compute; reflexivity).
  destruct (validate_email (ctl (editing anne_marie)) (editing anne_marie)
              (js "user@example.com") H) as (_ & _ & _ & _ & Hpass & _).
  split; [exact H | by apply Hpass].
Defined.

(** [invalid_submit_sends_nothing] on the same draft, which does not pass:
    nothing is sent and the dialog stays open. *)
Lemma invalid_submit_witness :
  (validate (ctl (editing anne_marie)) (editing anne_marie)).1 = inr false /\
  pending (run (handleSubmit (ctl (editing anne_marie))) (editing anne_marie)) = [] /\
  open (ctl (run (handleSubmit (ctl (editing anne_marie))) (editing anne_marie)))
    = true.
Proof.
  assert ((validate (ctl (editing anne_marie)) (editing anne_marie)).1 = inr false)
    as H by (vm_compute; reflexivity).
  destruct (invalid_submit_sends_nothing (editing anne_marie) H)
    as (_ & Hp & _ & Ho & _).
  split_and!; [exact H | exact Hp | exact Ho].
Defined.

(** [successful_create_resets] on Jane Doe's draft and a [201]. *)
Lemma successful_create_witness :
  (validate (ctl (editing jane)) (editing jane)).1 = inr true /\
  ok created = true /\
  revalidations
    (run (handleSubmit_settled (Fulfilled created))
         (settle_request (length (pending (editing jane)))
            (run (handleSubmit (ctl (editing jane))) (editing jane)))) = 1 /\
  ctl (run (handleSubmit_settled (Fulfilled created))
         (settle_request (length (pending (editing jane)))
            (run (handleSubmit (ctl (editing jane))) (editing jane))))
    = initial_state.
Proof.
  assert ((validate (ctl (editing jane)) (editing jane)).1 = inr true)
    as H by (vm_compute; reflexivity).
  destruct (successful_create_resets (editing jane) created H eq_refl)
    as (_ & _ & Hm & Hs & _).
  split_and!; [exact H | reflexivity | exact Hm | exact Hs].
Defined.

(** [failed_create_keeps_dialog] on Jane Doe's draft and a [400] saying
    [Email already exists]. *)
Lemma failed_create_witness :
  (validate (ctl (editing jane)) (editing jane)).1 = inr true /\
  ok (bad_request (js "Email already exists")) = false /\
  submitError
    (ctl (run (handleSubmit_settled
                 (Fulfilled (bad_request (js "Email already exists"))))
              (settle_request (length (pending (editing jane)))
                 (run (handleSubmit (ctl (editing jane))) (editing jane)))))
    = Some (js "Email already exists") /\
  open
    (ctl (run (handleSubmit_settled
                 (Fulfilled (bad_request (js "Email already exists"))))
              (settle_request (length (pending (editing jane)))
                 (run (handleSubmit (ctl (editing jane))) (editing jane)))))
    = true.
Proof.
  assert ((validate (ctl (editing jane)) (editing jane)).1 = inr true)
    as H by (vm_compute; reflexivity).
  assert (get_message (JObject [(js "message", JString (js "Email already exists"))])
          = inr (JString (js "Email already exists")))
    as Hm by (vm_compute; reflexivity).
  destruct (failed_create_keeps_dialog (editing jane)
              (bad_request (js "Email already exists")) _ _ H eq_refl eq_refl Hm)
    as (Hs & _ & _ & _ & Ho & _).
  split_and!; [exact H | reflexivity | | exact Ho].
  apply Hs; [reflexivity | discriminate].
Defined.

(** [late_failure_survives_close]: Jane Doe's request is in flight, the dialog
    is closed, the request comes back [400]; the reopened dialog shows
    [Email already exists]. *)
Lemma late_failure_witness :
  pending (submitting jane) !! 0 = Some jane /\
  is_failure (Fulfilled (bad_request (js "Email already exists"))) = true /\
  submitError (ctl (run handleClose (submitting jane))) = None /\
  banner
    (ctl (run handleOpen
            (run (handleSubmit_settled
                    (Fulfilled (bad_request (js "Email already exists"))))
                 (settle_request 0 (run handleClose (submitting jane))))))
    = Some (js "Email already exists").
Proof.
  destruct (late_failure_survives_close (submitting jane) 0 jane
              (Fulfilled (bad_request (js "Email already exists")))
              eq_refl eq_refl)
    as (_ & Hc & _ & msg & _ & _ & _ & _ & _ & _ & Hshown).
  split_and!; [reflexivity | reflexivity | exact Hc |].
  destruct (Hshown (bad_request (js "Email already exists")) _ _
              eq_refl eq_refl eq_refl) as [Hm _].
  destruct (Hm (js "Email already exists") eq_refl) as [_ Hb];
    [discriminate | exact Hb].
Defined.

(** * Further properties of the page *)

(** ** The list side: [fetcher] and [getDisplayName] *)

(** X1.  [fetcher] resolves exactly when the response is [ok] and its body
    parses, and then with the parsed body; it rejects with the parsed body
    exactly when the body parses and the response is not [ok]; a body that
    does not parse rejects with the parser's error whatever the status, and a
    failed [fetch] rejects with its error. *)
Theorem fetcher_outcomes (res : fetch_result) :
  (forall body,
     CustomerList.fetcher res = inr body <->
     exists response,
       res = Fulfilled response /\ ok response = true /\ json response = inr body) /\
  (forall body,
     CustomerList.fetcher res = inl (CustomerList.ThrownBody body) <->
     exists response,
       res = Fulfilled response /\ ok response = false /\ json response = inr body) /\
  (forall err,
     CustomerList.fetcher res = inl (CustomerList.Raised err) <->
     res = Rejected err \/
     exists response, res = Fulfilled response /\ json response = inl err).
Proof.
  unfold CustomerList.fetcher. split_and!.
  - intros body. split.
    + destruct res as [err | response]; [discriminate |].
      destruct (json response) as [err | b] eqn:Ej; [discriminate |].
      destruct (ok response) eqn:Eo; [| discriminate].
      cbn [negb]. intros E. simplify_eq. by exists response.
    + intros (response & -> & Ho & Hj). by rewrite Hj, Ho.
  - intros body. split.
    + destruct res as [err | response]; [discriminate |].
      destruct (json response) as [err | b] eqn:Ej; [discriminate |].
      destruct (ok response) eqn:Eo; [discriminate |].
      cbn [negb]. intros E. simplify_eq. by exists response.
    + intros (response & -> & Ho & Hj). by rewrite Hj, Ho.
  - intros err. split.
    + destruct res as [err' | response].
      * intros E. simplify_eq. by left.
      * destruct (json response) as [err' | b] eqn:Ej.
        -- intros E. simplify_eq. right. by exists response.
        -- by destruct (ok response).
    + intros [-> | (response & -> & Hj)]; [done | by rewrite Hj].
Qed.

(** X2.  The name shown for a customer is never empty: it is the business
    name when there is a non-empty one, and otherwise the first and last
    names around a space, so at least the space. *)
Theorem getDisplayName_not_empty (customer : CustomerList.Customer) :
  CustomerList.getDisplayName customer <> [] /\
  (forall business,
     CustomerList.businessName customer = Some business -> business <> [] ->
     CustomerList.getDisplayName customer = business) /\
  (truthy_opt (CustomerList.businessName customer) = false ->
   CustomerList.getDisplayName customer =
     CustomerList.firstName customer ++ js " " ++ CustomerList.lastName customer /\
   length (CustomerList.getDisplayName customer) =
     length (CustomerList.firstName customer) + 1 +
     length (CustomerList.lastName customer)).
Proof.
  assert (forall a b : jsstring, a ++ js " " ++ b <> []) as Hne.
  { intros a b E. apply (f_equal length) in E.
    rewrite !length_app in E.
    change (length (js " ")) with 1 in E. cbn in E. lia. }
  unfold CustomerList.getDisplayName.
  destruct (CustomerList.businessName customer) as [[| x b] |]; cbn [truthy_opt truthy].
  - split_and!; [apply Hne | intros ? [= <-]; done |].
    intros _. split; [done |]. rewrite !length_app.
    change (length (js " ")) with 1. lia.
  - split_and!; [discriminate | by intros ? [= <-] | discriminate].
  - split_and!; [apply Hne | discriminate |].
    intros _. split; [done |]. rewrite !length_app.
    change (length (js " ")) with 1. lia.
Qed.

(** ** The dialog, handler by handler *)

Lemma name_inj (i j : input) : name i = name j -> i = j.
Proof. destruct i, j; first [reflexivity | key_ne]. Qed.

(** X3.  After a change event on a text field, that field is not marked in
    error, whether it was before or not, and the marks of the other fields
    are as they were. *)
Theorem handleChange_unflags (w : world) (e : ChangeEvent) :
  let w' := run (handleChange (ctl w) e) w in
  field_error (ctl w') (target e) = false /\
  (forall j, j <> target e -> field_error (ctl w') j = field_error (ctl w) j).
Proof.
  intros w'. subst w'. rewrite run_handleChange. split.
  - unfold field_error. cbn [ctl errors].
    destruct (truthy_opt (errors (ctl w) !! name (target e))) eqn:E.
    + rewrite lookup_insert_eq. by destruct (target e).
    + rewrite E. by destruct (target e).
  - intros j Hj. unfold field_error. cbn [ctl errors].
    assert (name (target e) <> name j) as Hn
      by (intros En; apply Hj; symmetry; by apply name_inj).
    destruct (truthy_opt (errors (ctl w) !! name (target e))); [| done].
    rewrite lookup_insert_ne by done. reflexivity.
Qed.

(** X4.  Validating again right after [validate] changes nothing and gives
    the same answer: the verdict depends on the draft alone, which
    [validate] does not touch. *)
Theorem validate_idempotent (w : world) :
  let w1 := run (validate (ctl w)) w in
  run (validate (ctl w1)) w1 = w1 /\
  (validate (ctl w1) w1).1 = (validate (ctl w) w).1.
Proof.
  intros w1. subst w1. unfold run.
  repeat (rewrite validate_eq;
          cbn [fst snd ctl pending revalidations open newCustomer
               errors submitError isSubmitting]).
  done.
Qed.

(** X5.  A submit on a draft that passes validation puts the dialog in the
    submitting state: [isSubmitting] is true and the submit button disabled,
    an earlier submit error is cleared, the error map is empty, and one
    request is added, carrying the draft as it is; the dialog stays as open
    as it was, the draft is kept and nothing is revalidated. *)
Theorem valid_submit_starts_request (w : world) :
  (validate (ctl w) w).1 = inr true ->
  let w' := run (handleSubmit (ctl w)) w in
  isSubmitting (ctl w') = true /\
  submit_disabled (ctl w') = true /\
  submitError (ctl w') = None /\
  errors (ctl w') = ∅ /\
  pending w' = pending w ++ [newCustomer (ctl w)] /\
  open (ctl w') = open (ctl w) /\
  newCustomer (ctl w') = newCustomer (ctl w) /\
  revalidations w' = revalidations w.
Proof.
  intros H w'. subst w'.
  apply validate_result, bool_decide_eq_true in H.
  rewrite valid_submit by done. done.
Qed.

(** X6.  [mutate] is called when a request settles with an [ok] response
    and at no other time: a settlement adds one revalidation on success and
    none on failure.  Either way [isSubmitting] is false afterwards and the
    other pending requests are left alone. *)
Theorem revalidation_only_on_success (res : fetch_result) (w : world) :
  let w' := run (handleSubmit_settled res) w in
  revalidations w' = revalidations w + (if is_failure res then 0 else 1) /\
  isSubmitting (ctl w') = false /\
  submit_disabled (ctl w') = false /\
  pending w' = pending w.
Proof.
  intros w'. subst w'. unfold submit_disabled.
  destruct (settled_frame res w) as [-> ->].
  split_and!; try reflexivity.
  destruct res as [err | response]; cbn [is_failure].
  - rewrite settled_rejected. cbn. lia.
  - destruct (ok response) eqn:E; cbn [negb].
    + rewrite settled_ok by done. cbn. lia.
    + rewrite settled_not_ok by done. cbn. lia.
Qed.

(** X7.  An [ok] response resets the dialog whatever happened while the
    request was in flight: the draft typed meanwhile is dropped, a reopened
    dialog is closed, and the state is the one the page started in. *)
Theorem late_success_resets (response : Response) (w : world) :
  ok response = true ->
  let w' := run (handleSubmit_settled (Fulfilled response)) w in
  ctl w' = initial_state /\
  banner (ctl w') = None /\
  (forall i, field_error (ctl w') i = false) /\
  (forall i, newCustomer (ctl w') !! name i = Some []).
Proof.
  intros H w'. subst w'. rewrite settled_ok by done. cbn [ctl].
  split_and!; [reflexivity | reflexivity | |].
  - intros i. unfold field_error, initial_state. cbn [errors].
    rewrite lookup_empty. by destruct i.
  - apply emptyCustomer_lookup.
Qed.

(** X8.  A failed request leaves the form as it finds it: it sets the submit
    error and clears [isSubmitting], and leaves alone whether the dialog is
    open, the draft and the validation errors. *)
Theorem failure_keeps_form (res : fetch_result) (w : world) :
  is_failure res = true ->
  let w' := run (handleSubmit_settled res) w in
  is_Some (submitError (ctl w')) /\
  open (ctl w') = open (ctl w) /\
  newCustomer (ctl w') = newCustomer (ctl w) /\
  errors (ctl w') = errors (ctl w) /\
  (forall i, field_error (ctl w') i = field_error (ctl w) i) /\
  isSubmitting (ctl w') = false.
Proof.
  intros H w'. subst w'.
  assert (exists err, run (handleSubmit_settled res) w = failed_with err w)
    as [err ->].
  { destruct res as [err | response].
    - exists err. apply settled_rejected.
    - eexists. apply settled_not_ok. by apply negb_true_iff in H. }
  unfold failed_with. cbn [ctl open newCustomer errors submitError isSubmitting].
  split_and!; try reflexivity. by eexists.
Qed.

(** X9.  The submit error by kind of failure.  A rejected [fetch] and a body
    that does not parse show the message of the error raised; a raised value
    that is not an [Error] shows ['An unknown error occurred']; a body that
    is [null] shows the message of the [TypeError] of reading its property,
    not the fallback; a body that is a string, a number, a boolean or an
    array has no message property and shows ['Failed to create customer']. *)
Theorem failure_messages (w : world) :
  let shown res := submitError (ctl (run (handleSubmit_settled res) w)) in
  (forall m, shown (Rejected (ThrownError m)) = Some m) /\
  shown (Rejected ThrownOther) = Some (js "An unknown error occurred") /\
  (forall m, shown (Fulfilled {| ok := false; json := inl (ThrownError m) |})
             = Some m) /\
  shown (Fulfilled {| ok := false; json := inr JNull |}) = Some null_read_message /\
  (forall s, shown (Fulfilled {| ok := false; json := inr (JString s) |})
             = Some (js "Failed to create customer")) /\
  (forall z t, shown (Fulfilled {| ok := false; json := inr (JNumber z t) |})
               = Some (js "Failed to create customer")) /\
  (forall b, shown (Fulfilled {| ok := false; json := inr (JBool b) |})
             = Some (js "Failed to create customer")) /\
  (forall l, shown (Fulfilled {| ok := false; json := inr (JArray l) |})
             = Some (js "Failed to create customer")).
Proof.
  intros shown. subst shown. cbv beta.
  split_and!; intros; first [by rewrite settled_rejected | by rewrite settled_not_ok].
Qed.

(** X10.  Closing and reopening gives an empty form: open, every field
    empty, no error of either kind, no banner.  It does not touch the
    submission: a request in flight stays in flight and the submit button of
    the reopened dialog is disabled for as long.  [handleOpen] by itself
    keeps the draft and the errors. *)
Theorem close_then_open (w : world) :
  let w' := run handleOpen (run handleClose w) in
  open (ctl w') = true /\
  (forall i, newCustomer (ctl w') !! name i = Some []) /\
  errors (ctl w') = ∅ /\
  submitError (ctl w') = None /\
  banner (ctl w') = None /\
  pending w' = pending w /\
  submit_disabled (ctl w') = isSubmitting (ctl w) /\
  newCustomer (ctl (run handleOpen w)) = newCustomer (ctl w) /\
  errors (ctl (run handleOpen w)) = errors (ctl w) /\
  submitError (ctl (run handleOpen w)) = submitError (ctl w).
Proof.
  intros w'. subst w'. rewrite !run_handleOpen, run_handleClose.
  unfold banner, submit_disabled.
  cbn [ctl open newCustomer errors submitError isSubmitting pending].
  split_and!; try reflexivity. apply emptyCustomer_lookup.
Qed.

Lemma verdict_truthy (c : dict) (k m : jsstring) :
  newErrors_of c !! k = Some m -> truthy m = true.
Proof.
  rewrite newErrors_lookup.
  unfold email_verdict, lastName_verdict, firstName_verdict, spec_name_rule.
  repeat case_decide; [| | | discriminate];
    repeat match goal with
           | |- context [match ?x with _ => _ end] => destruct x
           end;
    intros E; simplify_eq; vm_compute; reflexivity.
Qed.

(** X16.  After [validate] the text fields marked in error are exactly the
    ones whose value breaks its rule; the business name field is never
    marked. *)
Theorem validate_marks_failing (r : state) (w : world) (i : input) :
  field_error (ctl (run (validate r) w)) i = true <->
  ~ spec_field_ok (newCustomer r) (name i).
Proof.
  assert (forall k, truthy_opt (newErrors_of (newCustomer r) !! k) = true <->
                    ~ spec_field_ok (newCustomer r) k) as H.
  { intros k. rewrite <- newErrors_None.
    destruct (newErrors_of (newCustomer r) !! k) as [m |] eqn:E; cbn [truthy_opt].
    - rewrite (verdict_truthy _ _ _ E). split; [discriminate | done].
    - split; [discriminate | intros Hn; by destruct Hn]. }
  unfold field_error. rewrite validate_errors.
  destruct i; try apply H.
  split; [discriminate |]. intros Hn. exfalso. apply Hn.
  unfold spec_field_ok. split_and!; intros E; exfalso; revert E; key_ne.
Qed.

(** ** What holds in every state the page can reach *)

Lemma jane_in_flight_reachable : reachable jane_in_flight.
Proof.
  unfold jane_in_flight, jane_typed. cbv zeta.
  eapply reachable_step; [| apply step_submit; vm_compute; reflexivity].
  eapply reachable_step; [| apply step_change].
  eapply reachable_step; [| apply step_change].
  eapply reachable_step; [| apply step_change].
  eapply reachable_step; [| apply step_open].
  apply reachable_initial.
Qed.

Lemma jane_in_flight_pending : pending jane_in_flight = [jane].
Proof. vm_compute. reflexivity. Qed.

(** The draft after a settlement is the one before it, or the empty one. *)
Lemma settled_state (res : fetch_result) (w : world) :
  ctl (run (handleSubmit_settled res) w) = initial_state \/
  exists err, run (handleSubmit_settled res) w = failed_with err w.
Proof.
  destruct res as [err | response].
  - right. exists err. apply settled_rejected.
  - destruct (ok response) eqn:E.
    + left. by rewrite settled_ok.
    + right. eexists. by apply settled_not_ok.
Qed.

Lemma newErrors_empty_ok (c : dict) :
  newErrors_of c = ∅ -> forall k, spec_field_ok c k.
Proof. intros E k. apply newErrors_None. rewrite E. apply lookup_empty. Qed.

(** X11.  Only drafts that pass validation are ever sent: in every state the
    page can reach, the body of each request in flight has a first and a
    last name made of letters and an e-mail of the accepted shape. *)
Theorem pending_bodies_valid (w : world) :
  reachable w ->
  forall body, body ∈ pending w ->
    newErrors_of body = ∅ /\ forall k, spec_field_ok body k.
Proof.
  intros Hw.
  assert (forall body, body ∈ pending w -> newErrors_of body = ∅) as H.
  { induction Hw as [| w w' _ IH Hstep]; intros body Hin.
    - by apply elem_of_nil in Hin.
    - destruct Hstep as [w | w | w e | w Hen | w i b res Hi].
      + rewrite run_handleOpen in Hin. by apply IH.
      + rewrite run_handleClose in Hin. by apply IH.
      + rewrite run_handleChange in Hin. by apply IH.
      + unfold run in Hin. rewrite handleSubmit_eq in Hin.
        destruct (bool_decide (newErrors_of (newCustomer (ctl w)) = ∅)) eqn:E.
        * cbn [snd pending] in Hin. apply elem_of_app in Hin as [Hin | Hin].
          -- by apply IH.
          -- apply list_elem_of_singleton in Hin as ->.
             by apply bool_decide_eq_true in E.
        * rewrite validate_eq in Hin. by apply IH.
      + destruct (settled_frame res (settle_request i w)) as [_ Hp].
        rewrite Hp in Hin. cbn [settle_request pending] in Hin.
        apply IH. by apply list_elem_of_delete_inv in Hin. }
  intros body Hin. split; [by apply H |]. by apply newErrors_empty_ok, H.
Qed.

Lemma emptyCustomer_dom : dom emptyCustomer = field_names.
Proof.
  unfold emptyCustomer, field_names.
  rewrite !dom_insert_L, dom_empty_L. set_solver.
Qed.

Lemma name_in_field_names (i : input) : name i ∈ field_names.
Proof. unfold field_names. destruct i; cbn [name]; set_solver. Qed.

(** X12.  The draft always has its four properties and no other, so every
    text field has a string to show, and so has the body of every request in
    flight. *)
Theorem draft_fields (w : world) :
  reachable w ->
  dom (newCustomer (ctl w)) = field_names /\
  (forall i : input, is_Some (newCustomer (ctl w) !! name i)) /\
  (forall body, body ∈ pending w -> dom body = field_names).
Proof.
  intros Hw.
  assert (dom (newCustomer (ctl w)) = field_names /\
          forall body, body ∈ pending w -> dom body = field_names) as [Hd Hp].
  { induction Hw as [| w w' _ [IHd IHp] Hstep].
    - split; [apply emptyCustomer_dom | intros body Hin; by apply elem_of_nil in Hin].
    - destruct Hstep as [w | w | w e | w Hen | w i b res Hi].
      + rewrite run_handleOpen. done.
      + rewrite run_handleClose. split; [apply emptyCustomer_dom | done].
      + rewrite run_handleChange. split; [| done]. cbn [ctl newCustomer].
        rewrite dom_insert_L, IHd.
        apply subseteq_union_1_L, singleton_subseteq_l, name_in_field_names.
      + unfold run. rewrite handleSubmit_eq.
        destruct (bool_decide _).
        * split; [done |]. cbn [snd pending]. intros body Hin.
          apply elem_of_app in Hin as [Hin | Hin]; [by apply IHp |].
          by apply list_elem_of_singleton in Hin as ->.
        * rewrite validate_eq. done.
      + destruct (settled_frame res (settle_request i w)) as [_ Hp]. split.
        * destruct (settled_state res (settle_request i w)) as [-> | [err ->]];
            [apply emptyCustomer_dom | exact IHd].
        * rewrite Hp. cbn [settle_request pending]. intros body Hin.
          apply IHp. by apply list_elem_of_delete_inv in Hin. }
  split_and!; [exact Hd | | exact Hp].
  intros i. apply elem_of_dom. rewrite Hd. apply name_in_field_names.
Qed.

Lemma newErrors_dom (c : dict) : dom (newErrors_of c) ⊆ validated_names.
Proof.
  intros k Hk. apply elem_of_dom in Hk as [m Hm].
  rewrite newErrors_lookup in Hm. unfold validated_names.
  repeat case_decide; subst; first [set_solver | discriminate Hm].
Qed.

(** X13.  The error map never has an entry outside [firstName], [lastName]
    and [email]; the business name in particular never has one. *)
Theorem errors_keys (w : world) :
  reachable w ->
  dom (errors (ctl w)) ⊆ validated_names /\
  errors (ctl w) !! js "businessName" = None.
Proof.
  intros Hw.
  assert (dom (errors (ctl w)) ⊆ validated_names) as H.
  { induction Hw as [| w w' _ IH Hstep].
    - cbn. rewrite dom_empty_L. set_solver.
    - destruct Hstep as [w | w | w e | w Hen | w i b res Hi].
      + rewrite run_handleOpen. exact IH.
      + rewrite run_handleClose. cbn [ctl errors]. rewrite dom_empty_L. set_solver.
      + rewrite run_handleChange. cbn [ctl errors].
        destruct (truthy_opt (errors (ctl w) !! name (target e))) eqn:E; [| exact IH].
        rewrite dom_insert_lookup_L; [exact IH |].
        destruct (errors (ctl w) !! name (target e)); [by eexists | discriminate E].
      + unfold run. rewrite handleSubmit_eq.
        destruct (bool_decide _); [| rewrite validate_eq]; apply newErrors_dom.
      + destruct (settled_state res (settle_request i w)) as [-> | [err ->]].
        * cbn. rewrite dom_empty_L. set_solver.
        * exact IH. }
  split; [exact H |].
  apply not_elem_of_dom. intros Hin. apply H in Hin.
  unfold validated_names in Hin.
  apply elem_of_union in Hin as [Hin | Hin];
    [apply elem_of_union in Hin as [Hin | Hin] |];
    apply elem_of_singleton in Hin; revert Hin; key_ne.
Qed.

(** X14.  While a request is in flight the dialog shows no error: in every
    reachable state where [isSubmitting] holds the error map is empty and
    there is no submit error, hence no field is marked and there is no
    banner. *)
Theorem quiet_while_submitting (w : world) :
  reachable w ->
  isSubmitting (ctl w) = true ->
  errors (ctl w) = ∅ /\
  submitError (ctl w) = None /\
  (forall i, field_error (ctl w) i = false) /\
  banner (ctl w) = None.
Proof.
  intros Hw Hs.
  assert (errors (ctl w) = ∅ /\ submitError (ctl w) = None) as [He Hb].
  { revert Hs. induction Hw as [| w w' _ IH Hstep]; [discriminate |].
    destruct Hstep as [w | w | w e | w Hen | w i b res Hi].
    - rewrite run_handleOpen. exact IH.
    - rewrite run_handleClose. done.
    - rewrite run_handleChange. cbn [ctl errors submitError isSubmitting].
      intros Hs. destruct (IH Hs) as [He Hb]. rewrite He, lookup_empty. done.
    - unfold run. rewrite handleSubmit_eq.
      destruct (bool_decide _) eqn:E.
      + intros _. cbn [snd ctl errors submitError]. split; [| done].
        by apply bool_decide_eq_true in E.
      + rewrite validate_eq. cbn [snd ctl isSubmitting].
        unfold submit_disabled in Hen. congruence.
    - destruct (settled_frame res (settle_request i w)) as [-> _]. discriminate. }
  split_and!; [exact He | exact Hb | |].
  - intros i. unfold field_error. rewrite He, lookup_empty. by destruct i.
  - unfold banner. by rewrite Hb.
Qed.

(** ** The e-mail pattern *)

(** X15.  A string [emailRegex] accepts holds no whitespace, holds exactly
    one [@], and is at least five characters long. *)
Theorem accepted_email_facts (s : jsstring) :
  test emailRegex s = true ->
  Forall (fun c => is_space c = false) s /\
  count_occ N.eq_dec s 0x40%N = 1 /\
  5 <= length s.
Proof.
  intros H. apply emailRegex_shape in H
    as (a & b & c & -> & Ha & Hb & Hc & Fa & Fb & Fc).
  assert (forall l, Forall (fun x => plain_char x = true) l ->
                    Forall (fun x => is_space x = false) l) as Hplain.
  { intros l Hl. eapply Forall_impl; [exact Hl |]. intros x Hx. cbv beta in *.
    unfold plain_char in Hx. apply andb_true_iff in Hx as [Hx _].
    by apply negb_true_iff in Hx. }
  split_and!.
  - repeat (apply Forall_app; split); try (by apply Hplain);
      (constructor; [vm_compute; reflexivity | constructor]).
  - rewrite !count_occ_app.
    rewrite (count_at_plain a), (count_at_plain b), (count_at_plain c) by done.
    reflexivity.
  - rewrite !length_app. cbn [length].
    destruct a; [done |]. destruct b; [done |]. destruct c; [done |].
    cbn [length]. lia.
Qed.

(** ** The further properties on sample data *)

Lemma empty_submitted_reachable : reachable empty_submitted.
Proof.
  unfold empty_submitted. cbv zeta.
  eapply reachable_step; [| apply step_submit; reflexivity].
  eapply reachable_step; [| apply step_open].
  apply reachable_initial.
Qed.

(** [valid_submit_starts_request] on Jane Doe's draft. *)
Lemma valid_submit_witness :
  (validate (ctl (editing jane)) (editing jane)).1 = inr true /\
  isSubmitting (ctl (run (handleSubmit (ctl (editing jane))) (editing jane))) = true /\
  pending (run (handleSubmit (ctl (editing jane))) (editing jane)) = [jane].
Proof.
  assert ((validate (ctl (editing jane)) (editing jane)).1 = inr true)
    as H by (vm_compute; reflexivity).
  destruct (valid_submit_starts_request (editing jane) H)
    as (Hs & _ & _ & _ & Hp & _).
  split_and!; [exact H | exact Hs | exact Hp].
Defined.

(** [late_success_resets] when the first name was retyped while the request
    was in flight: the retyped name is gone. *)
Lemma late_success_witness :
  ok created = true /\
  newCustomer (ctl jane_retyped) !! js "firstName" = Some (js "Janet") /\
  newCustomer (ctl (run (handleSubmit_settled (Fulfilled created)) jane_retyped))
    !! name FirstName = Some [].
Proof.
  destruct (late_success_resets created jane_retyped eq_refl) as (_ & _ & _ & H).
  split_and!; [reflexivity | vm_compute; reflexivity | apply H].
Defined.

(** [failure_keeps_form] on the same state and a [400]: the retyped name
    stays. *)
Lemma failure_keeps_form_witness :
  is_failure (Fulfilled (bad_request (js "Email already exists"))) = true /\
  newCustomer
    (ctl (run (handleSubmit_settled
                 (Fulfilled (bad_request (js "Email already exists"))))
              jane_retyped))
    = newCustomer (ctl jane_retyped).
Proof.
  destruct (failure_keeps_form
              (Fulfilled (bad_request (js "Email already exists")))
              jane_retyped eq_refl) as (_ & _ & H & _).
  split; [reflexivity | exact H].
Defined.

(** [pending_bodies_valid] on Jane Doe's request in flight. *)
Lemma pending_bodies_witness :
  reachable jane_in_flight /\
  jane ∈ pending jane_in_flight /\
  newErrors_of jane = ∅.
Proof.
  assert (jane ∈ pending jane_in_flight) as Hin
    by (rewrite jane_in_flight_pending; apply list_elem_of_singleton; reflexivity).
  destruct (pending_bodies_valid jane_in_flight jane_in_flight_reachable jane Hin)
    as [H _].
  split_and!; [exact jane_in_flight_reachable | exact Hin | exact H].
Defined.

(** [draft_fields] on the same state. *)
Lemma draft_fields_witness :
  reachable jane_in_flight /\
  dom (newCustomer (ctl jane_in_flight)) = field_names.
Proof.
  destruct (draft_fields jane_in_flight jane_in_flight_reachable) as (H & _).
  split; [exact jane_in_flight_reachable | exact H].
Defined.

(** [errors_keys] after a submit of the empty form, which fills the map. *)
Lemma errors_keys_witness :
  reachable empty_submitted /\
  errors (ctl empty_submitted) !! js "email" = Some (js "Email is required") /\
  errors (ctl empty_submitted) !! js "businessName" = None.
Proof.
  destruct (errors_keys empty_submitted empty_submitted_reachable) as (_ & H).
  split_and!; [exact empty_submitted_reachable | vm_compute; reflexivity | exact H].
Defined.

(** [quiet_while_submitting] on Jane Doe's request in flight. *)
Lemma quiet_witness :
  reachable jane_in_flight /\
  isSubmitting (ctl jane_in_flight) = true /\
  errors (ctl jane_in_flight) = ∅ /\
  banner (ctl jane_in_flight) = None.
Proof.
  assert (isSubmitting (ctl jane_in_flight) = true) as Hs
    by (vm_compute; reflexivity).
  destruct (quiet_while_submitting jane_in_flight jane_in_flight_reachable Hs)
    as (He & _ & _ & Hb).
  split_and!; [exact jane_in_flight_reachable | exact Hs | exact He | exact Hb].
Defined.

(** [accepted_email_facts] on the shortest kind of accepted string. *)
Lemma accepted_email_witness :
  test emailRegex (js "a@b.c") = true /\
  count_occ N.eq_dec (js "a@b.c") 0x40%N = 1 /\
  5 <= length (js "a@b.c").
Proof.
  assert (test emailRegex (js "a@b.c") = true) as H by (vm_compute; reflexivity).
  destruct (accepted_email_facts (js "a@b.c") H) as (_ & Hc & Hl).
  split_and!; [exact H | exact Hc | exact Hl].
Defined.
